(** * hslua-packaging: cached and wrapped field access (cbits/hslpackaging.c)

    The four C functions of [hslpackaging.c] run against the C API of
    Lua 5.3: an evaluation stack addressed by index, tables with raw access,
    full userdata carrying a user value and a metatable, and calls back into
    the interpreter.  This development embeds the part of that API the
    functions use as operations of a state-and-error monad, writes the four
    functions in it statement for statement, and proves the properties of
    field reads and writes through the cache. *)

From stdpp Require Import base numbers option list strings countable gmap.

Open Scope Z_scope.

(** ** Lua values *)

(** Collectable objects are referred to by address. *)
Abbreviation loc := positive.

(** A [lua_Number] is kept as its 64-bit IEEE-754 pattern, a [lua_Integer]
    as a [Z]; no arithmetic is done on either by this code. *)
Inductive value : Type :=
| VNil
| VBoolean (b : bool)
| VLightUserdata (p : Z)
| VInteger (i : Z)
| VFloat (bits : Z)
| VString (s : string)
| VTable (l : loc)
| VFunction (f : loc)
| VUserdata (u : loc)
| VThread (t : loc).

#[global] Instance value_eq_dec : EqDecision value.
Proof. solve_decision. Defined.

Definition value_to_sum (v : value)
  : unit + bool + Z + Z + Z + string + loc + loc + loc + loc :=
  match v with
  | VNil => inl (inl (inl (inl (inl (inl (inl (inl (inl tt))))))))
  | VBoolean b => inl (inl (inl (inl (inl (inl (inl (inl (inr b))))))))
  | VLightUserdata p => inl (inl (inl (inl (inl (inl (inl (inr p)))))))
  | VInteger i => inl (inl (inl (inl (inl (inl (inr i))))))
  | VFloat n => inl (inl (inl (inl (inl (inr n)))))
  | VString s => inl (inl (inl (inl (inr s))))
  | VTable l => inl (inl (inl (inr l)))
  | VFunction f => inl (inl (inr f))
  | VUserdata u => inl (inr u)
  | VThread t => inr t
  end.

Definition value_of_sum
  (x : unit + bool + Z + Z + Z + string + loc + loc + loc + loc) : value :=
  match x with
  | inl (inl (inl (inl (inl (inl (inl (inl (inl _)))))))) => VNil
  | inl (inl (inl (inl (inl (inl (inl (inl (inr b)))))))) => VBoolean b
  | inl (inl (inl (inl (inl (inl (inl (inr p))))))) => VLightUserdata p
  | inl (inl (inl (inl (inl (inl (inr i)))))) => VInteger i
  | inl (inl (inl (inl (inl (inr n))))) => VFloat n
  | inl (inl (inl (inl (inr s)))) => VString s
  | inl (inl (inl (inr l))) => VTable l
  | inl (inl (inr f)) => VFunction f
  | inl (inr u) => VUserdata u
  | inr t => VThread t
  end.

#[global] Instance value_countable : Countable value.
Proof.
  refine (inj_countable' value_to_sum value_of_sum _).
  intros []; reflexivity.
Defined.

(** Type tags of lua.h. *)
Definition LUA_TNONE : Z := -1.
Definition LUA_TNIL : Z := 0.
Definition LUA_TBOOLEAN : Z := 1.
Definition LUA_TLIGHTUSERDATA : Z := 2.
Definition LUA_TNUMBER : Z := 3.
Definition LUA_TSTRING : Z := 4.
Definition LUA_TTABLE : Z := 5.
Definition LUA_TFUNCTION : Z := 6.
Definition LUA_TUSERDATA : Z := 7.
Definition LUA_TTHREAD : Z := 8.

(** [ttnov]: the basic type of a value. *)
Definition ttype (v : value) : Z :=
  match v with
  | VNil => LUA_TNIL
  | VBoolean _ => LUA_TBOOLEAN
  | VLightUserdata _ => LUA_TLIGHTUSERDATA
  | VInteger _ | VFloat _ => LUA_TNUMBER
  | VString _ => LUA_TSTRING
  | VTable _ => LUA_TTABLE
  | VFunction _ => LUA_TFUNCTION
  | VUserdata _ => LUA_TUSERDATA
  | VThread _ => LUA_TTHREAD
  end.

(** ** Table keys *)

Definition flt_negative (bits : Z) : bool := Z.testbit bits 63.
Definition flt_exponent (bits : Z) : Z := Z.land (Z.shiftr bits 52) 2047.
Definition flt_mantissa (bits : Z) : Z := Z.land bits (Z.ones 52).

Definition luai_numisnan (bits : Z) : bool :=
  (flt_exponent bits =? 2047) && negb (flt_mantissa bits =? 0).

(** [luaV_tointeger] in mode 0 on a float: the integer it denotes exactly,
    when there is one in the range of [lua_Integer]. *)
Definition luaV_flttointeger (bits : Z) : option Z :=
  let e := flt_exponent bits in
  let m := flt_mantissa bits in
  let magnitude :=
    if e =? 2047 then None
    else if e =? 0 then (if m =? 0 then Some 0 else None)
    else
      let sig := Z.shiftl 1 52 + m in
      if 1075 <=? e then Some (Z.shiftl sig (e - 1075))
      else if Z.land sig (Z.ones (1075 - e)) =? 0
           then Some (Z.shiftr sig (1075 - e))
           else None in
  match magnitude with
  | None => None
  | Some n =>
      let i := if flt_negative bits then - n else n in
      if (- 2 ^ 63 <=? i) && (i <? 2 ^ 63) then Some i else None
  end.

(** The key a table files a value under: none for nil and NaN, the integer
    for a float with an exact integer value ([luaH_get], [luaH_newkey]). *)
Inductive key_class : Type :=
| KeyNil
| KeyNaN
| Key (k : value).

Definition classify_key (k : value) : key_class :=
  match k with
  | VNil => KeyNil
  | VFloat bits =>
      match luaV_flttointeger bits with
      | Some i => Key (VInteger i)
      | None => if luai_numisnan bits then KeyNaN else Key (VFloat bits)
      end
  | _ => Key k
  end.

(** ** Objects and the heap *)

Record Table : Type := mkTable {
  tbl_entries : gmap value value;
  tbl_metatable : option loc
}.

Record Udata : Type := mkUdata {
  ud_uservalue : value;
  ud_metatable : option loc
}.

Definition empty_table : Table := mkTable ∅ None.
Definition blank_udata : Udata := mkUdata VNil None.

(** [luaH_get]: raw read; an absent key reads as nil. *)
Definition luaH_get (t : Table) (k : value) : value :=
  match classify_key k with
  | Key k' => default VNil (tbl_entries t !! k')
  | _ => VNil
  end.

(** Raw write of a proper key; storing nil removes the binding. *)
Definition table_store (t : Table) (k' : value) (v : value) : Table :=
  mkTable
    (match v with
     | VNil => delete k' (tbl_entries t)
     | _ => <[k' := v]> (tbl_entries t)
     end)
    (tbl_metatable t).

(** The global state a callee can see and change: the tables, the full
    userdata, the metatables of the basic types ([G(L)->mt]), and the state
    of the host program the native getters read.  An address that was never
    allocated reads as a blank object, so allocation of an empty table does
    not change what any address reads as. *)
Record Heap (World : Type) : Type := mkHeap {
  tables : gmap loc Table;
  udata : gmap loc Udata;
  basic_mt : gmap Z loc;
  host : World
}.
Arguments mkHeap {World} _ _ _ _.
Arguments tables {World} _.
Arguments udata {World} _.
Arguments basic_mt {World} _.
Arguments host {World} _.

Section HeapAccess.
Context {World : Type}.
Implicit Types (h : Heap World) (l u : loc).

Definition get_table h l : Table := default empty_table (tables h !! l).
Definition get_udata h u : Udata := default blank_udata (udata h !! u).

Definition set_table h l (t : Table) : Heap World :=
  mkHeap (<[l := t]> (tables h)) (udata h) (basic_mt h) (host h).
Definition set_udata h u (d : Udata) : Heap World :=
  mkHeap (tables h) (<[u := d]> (udata h)) (basic_mt h) (host h).

(** A new object gets an address above every address in use. *)
Definition fresh_table h : loc :=
  Pos.succ (map_fold (λ l _ m, Pos.max l m) 1%positive (tables h)).

(** The metatable [lua_getmetatable] finds for a value. *)
Definition metatable_of h (v : value) : option loc :=
  match v with
  | VTable l => tbl_metatable (get_table h l)
  | VUserdata u => ud_metatable (get_udata h u)
  | _ => basic_mt h !! ttype v
  end.
End HeapAccess.

(** ** Errors and the interpreter *)

(** What a raised error carries.  [lua_error] raises the value on top of the
    stack as it is; the auxiliary library and the core build their message
    from debug information, of which the argument number and the text that
    the caller supplies are kept. *)
Inductive lua_error_obj : Type :=
| ErrorValue (v : value)
| ArgError (arg : Z) (extramsg : string)
| TypeError (arg : Z) (expected : Z)
| RunError (msg : string).

Inductive callee (World A : Type) : Type :=
| Returns (a : A) (h : Heap World)
| Throws (e : lua_error_obj) (h : Heap World).
Arguments Returns {World A} _ _.
Arguments Throws {World A} _ _.

(** The interpreter the C functions call back into: [luaD_call] runs a
    value as a function on arguments, [luaV_finishget] completes an indexing
    that raw access did not settle (the [__index] metamethod chain).  Both
    may run arbitrary code on the heap. *)
Class Interpreter (World : Type) : Type := {
  luaD_call : value → list value → Heap World → callee World (list value);
  luaV_finishget : value → value → Heap World → callee World value
}.

(** What a C function did by its own hand: the calls into the interpreter,
    in order. *)
Inductive event : Type :=
| EvCall (f : value) (args : list value)
| EvIndex (obj : value) (key : value).

#[global] Instance event_eq_dec : EqDecision event.
Proof. solve_decision. Defined.

Record lua_State (World : Type) : Type := mkState {
  stack : list value;
  heap : Heap World;
  trace : list event
}.
Arguments mkState {World} _ _ _.
Arguments stack {World} _.
Arguments heap {World} _.
Arguments trace {World} _.

(** ** The API monad *)

Inductive result (World A : Type) : Type :=
| Ok (a : A) (L : lua_State World)
| Error (e : lua_error_obj) (L : lua_State World)
| Undefined.
Arguments Ok {World A} _ _.
Arguments Error {World A} _ _.
Arguments Undefined {World A}.

Definition LuaM (World A : Type) : Type := lua_State World → result World A.

Definition lret {World A} (a : A) : LuaM World A := λ L, Ok a L.

Definition lbind {World A B} (m : LuaM World A) (f : A → LuaM World B)
  : LuaM World B :=
  λ L, match m L with
       | Ok a L' => f a L'
       | Error e L' => Error e L'
       | Undefined => Undefined
       end.

Declare Scope lua_scope.
Delimit Scope lua_scope with lua.
Notation "x <- m ;; k" := (lbind m (λ x, k))
  (at level 100, m at next level, k at level 200,
   right associativity) : lua_scope.
Notation "m ;; k" := (lbind m (λ _, k))
  (at level 100, k at level 200, right associativity) : lua_scope.

(** ** The C API, as far as the module uses it *)

Section API.
Context {World : Type} `{!Interpreter World}.
Local Open Scope lua_scope.

Definition undefined {A} : LuaM World A := λ _, Undefined.
Definition raise {A} (e : lua_error_obj) : LuaM World A := λ L, Error e L.
Definition get_heap : LuaM World (Heap World) := λ L, Ok (heap L) L.
Definition put_heap (h : Heap World) : LuaM World unit :=
  λ L, Ok tt (mkState (stack L) h (trace L)).

(** The stack grows to the right: index 1 is the first element, index -1
    the last. *)
Definition gettop (L : lua_State World) : Z := Z.of_nat (length (stack L)).

Definition lua_absindex (idx : Z) : LuaM World Z :=
  λ L, Ok (if 0 <? idx then idx else gettop L + idx + 1) L.

(** Position of a valid index. *)
Definition stack_slot (L : lua_State World) (idx : Z) : option nat :=
  if 0 <? idx then
    if idx <=? gettop L then Some (Z.to_nat (idx - 1)) else None
  else if (idx <? 0) && (- idx <=? gettop L)
       then Some (Z.to_nat (gettop L + idx))
       else None.

Definition index2value (L : lua_State World) (idx : Z) : option value :=
  match stack_slot L idx with
  | Some n => stack L !! n
  | None => None
  end.

(** An index that must be valid: anything else breaks the API's contract. *)
Definition valid_value (idx : Z) : LuaM World value :=
  λ L, match index2value L idx with
       | Some v => Ok v L
       | None => Undefined
       end.

(** An acceptable index: a positive one above the top reads as nil. *)
Definition acceptable_value (idx : Z) : LuaM World value :=
  λ L, match index2value L idx with
       | Some v => Ok v L
       | None => if 0 <? idx then Ok VNil L else Undefined
       end.

Definition push (v : value) : LuaM World unit :=
  λ L, Ok tt (mkState (stack L ++ [v]) (heap L) (trace L)).

Definition but_last (s : list value) : list value :=
  take (Nat.pred (length s)) s.

Definition pop_value : LuaM World value :=
  λ L, match last (stack L) with
       | Some v => Ok v (mkState (but_last (stack L)) (heap L) (trace L))
       | None => Undefined
       end.

Definition lua_type (idx : Z) : LuaM World Z :=
  λ L, match index2value L idx with
       | Some v => Ok (ttype v) L
       | None => if 0 <? idx then Ok LUA_TNONE L else Undefined
       end.

Definition lua_settop (idx : Z) : LuaM World unit :=
  λ L, if 0 <=? idx then
         Ok tt (mkState (resize (Z.to_nat idx) VNil (stack L))
                        (heap L) (trace L))
       else if - (idx + 1) <=? gettop L then
         Ok tt (mkState (take (Z.to_nat (gettop L + idx + 1)) (stack L))
                        (heap L) (trace L))
       else Undefined.

Definition lua_pop (n : Z) : LuaM World unit := lua_settop (- n - 1).

Definition lua_pushvalue (idx : Z) : LuaM World unit :=
  v <- acceptable_value idx ;; push v.

Definition lua_pushnil : LuaM World unit := push VNil.
Definition lua_pushliteral (s : string) : LuaM World unit := push (VString s).
Definition lua_pushstring (s : string) : LuaM World unit := push (VString s).

(** [lua_insert]: the top element moves to [idx], the ones above shift up. *)
Definition lua_insert (idx : Z) : LuaM World unit :=
  λ L, match stack_slot L idx, last (stack L) with
       | Some n, Some v =>
           Ok tt (mkState (take n (stack L) ++ v :: drop n (but_last (stack L)))
                          (heap L) (trace L))
       | _, _ => Undefined
       end.

Definition lua_remove (idx : Z) : LuaM World unit :=
  λ L, match stack_slot L idx with
       | Some n => Ok tt (mkState (delete n (stack L)) (heap L) (trace L))
       | None => Undefined
       end.

(** [lua_rawget]: pops the key, pushes [t[key]] without metamethods. *)
Definition lua_rawget (idx : Z) : LuaM World Z :=
  t <- valid_value idx ;;
  k <- pop_value ;;
  match t with
  | VTable l =>
      h <- get_heap ;;
      let v := luaH_get (get_table h l) k in
      push v ;; lret (ttype v)
  | _ => undefined
  end.

(** [lua_rawset]: pops value and key, does [t[key] = value] without
    metamethods; [luaH_newkey] rejects nil and NaN as keys. *)
Definition lua_rawset (idx : Z) : LuaM World unit :=
  t <- valid_value idx ;;
  v <- pop_value ;;
  k <- pop_value ;;
  match t with
  | VTable l =>
      h <- get_heap ;;
      match classify_key k with
      | Key k' => put_heap (set_table h l (table_store (get_table h l) k' v))
      | KeyNil => raise (RunError "table index is nil")
      | KeyNaN => raise (RunError "table index is NaN")
      end
  | _ => undefined
  end.

(** The slow path of [luaV_gettable], handed to the interpreter. *)
Definition finishget (t k : value) : LuaM World Z :=
  λ L, let tr := trace L ++ [EvIndex t k] in
       match luaV_finishget t k (heap L) with
       | Returns v h' => Ok (ttype v) (mkState (stack L ++ [v]) h' tr)
       | Throws e h' => Error e (mkState (stack L) h' tr)
       end.

(** [lua_gettable]: pops the key, pushes [t[key]], metamethods included. *)
Definition lua_gettable (idx : Z) : LuaM World Z :=
  t <- valid_value idx ;;
  k <- pop_value ;;
  h <- get_heap ;;
  match (match t with
         | VTable l => luaH_get (get_table h l) k
         | _ => VNil
         end) with
  | VNil => finishget t k
  | v => push v ;; lret (ttype v)
  end.

Definition adjust_results (nresults : Z) (rets : list value) : list value :=
  if nresults <? 0 then rets else resize (Z.to_nat nresults) VNil rets.

(** [lua_call]: pops the function and its [nargs] arguments, runs it, and
    pushes its results adjusted to [nresults]. *)
Definition lua_call (nargs nresults : Z) : LuaM World unit :=
  λ L, let s := stack L in
       let n := Z.to_nat nargs in
       match s !! (length s - S n)%nat with
       | Some f =>
           if (S n <=? length s)%nat then
             let base := (length s - S n)%nat in
             let args := drop (S base) s in
             let tr := trace L ++ [EvCall f args] in
             match luaD_call f args (heap L) with
             | Returns rets h' =>
                 Ok tt (mkState (take base s ++ adjust_results nresults rets)
                                h' tr)
             | Throws e h' => Error e (mkState (take base s) h' tr)
             end
           else Undefined
       | None => Undefined
       end.

Definition lua_createtable (narr nrec : Z) : LuaM World unit :=
  h <- get_heap ;;
  let l := fresh_table h in
  put_heap (set_table h l empty_table) ;;
  push (VTable l).

Definition lua_getuservalue (idx : Z) : LuaM World Z :=
  o <- valid_value idx ;;
  match o with
  | VUserdata u =>
      h <- get_heap ;;
      let v := ud_uservalue (get_udata h u) in
      push v ;; lret (ttype v)
  | _ => undefined
  end.

Definition lua_setuservalue (idx : Z) : LuaM World unit :=
  o <- valid_value idx ;;
  v <- pop_value ;;
  match o with
  | VUserdata u =>
      h <- get_heap ;;
      put_heap (set_udata h u (mkUdata v (ud_metatable (get_udata h u))))
  | _ => undefined
  end.

Definition lua_getmetatable (objindex : Z) : LuaM World Z :=
  obj <- acceptable_value objindex ;;
  h <- get_heap ;;
  match metatable_of h obj with
  | Some mt => push (VTable mt) ;; lret 1
  | None => lret 0
  end.

Definition lua_error : LuaM World Z :=
  e <- pop_value ;; raise (ErrorValue e).

(** *** lauxlib *)

Definition luaL_getmetafield (obj : Z) (event : string) : LuaM World Z :=
  has <- lua_getmetatable obj ;;
  if has =? 0 then lret LUA_TNIL
  else
    lua_pushstring event ;;
    tt <- lua_rawget (-2) ;;
    (if tt =? LUA_TNIL then lua_pop 2 else lua_remove (-2)) ;;
    lret tt.

Definition luaL_checktype (arg t : Z) : LuaM World unit :=
  ty <- lua_type arg ;;
  if ty =? t then lret tt else raise (TypeError arg t).

Definition luaL_checkany (arg : Z) : LuaM World unit :=
  ty <- lua_type arg ;;
  if ty =? LUA_TNONE then raise (ArgError arg "value expected") else lret tt.

End API.

(** ** hslpackaging.c *)

Section Packaging.
Context {World : Type} `{!Interpreter World}.
Local Open Scope lua_scope.

(** [hslua_wrappedudindex]: index a table that wraps a userdata under the
    key [_hslua_value]; values found in the userdata are copied into the
    table. *)
Definition hslua_wrappedudindex : LuaM World Z :=
  luaL_checktype 1 LUA_TTABLE ;;
  lua_settop 2 ;;
  (* Use value in table if present *)
  lua_pushvalue 2 ;;
  ty <- lua_rawget 1 ;;
  if negb (ty =? LUA_TNIL) then lret 1
  else
    lua_pop 1 ;;
    (* Get wrapped object *)
    lua_pushliteral "_hslua_value" ;;
    ty <- lua_rawget 1 ;;
    if negb (ty =? LUA_TUSERDATA) then
      lua_pushliteral "Corrupted object, wrapped userdata not found." ;;
      lua_error
    else
      (* Get value from wrapped object *)
      lua_pushvalue 2 ;;
      ty <- lua_gettable (-2) ;;
      if negb (ty =? LUA_TNIL) then
        (* key found in wrapped userdata, add to wrapping table *)
        lua_pushvalue 2 ;;
        lua_pushvalue (-2) ;;
        lua_rawset 1 ;;
        lret 1
      else
        (* key not found, return nil *)
        lua_pushnil ;;
        lret 1.

(** [hsluaP_get_caching_table]: leaves the caching table of the userdata at
    [idx] on top of the stack, creating and attaching one when the user
    value is nil.  [absidx] is computed and not used, as in the source. *)
Definition hsluaP_get_caching_table (idx : Z) : LuaM World unit :=
  absidx <- lua_absindex idx ;;
  ty <- lua_getuservalue idx ;;
  if ty =? LUA_TNIL then
    lua_pop 1 ;;
    lua_createtable 0 0 ;;
    lua_pushvalue (-1) ;;
    lua_setuservalue idx
  else lret tt.

(** Lines 97-106 of the source: the methods tier and the final nil.  Both
    the failed getter lookup and the absence of a getters table continue
    here. *)
Definition cachedindex_methods : LuaM World Z :=
  tm <- luaL_getmetafield 1 "methods" ;;
  if tm =? LUA_TTABLE then
    lua_pushvalue 2 ;;
    lua_rawget (-2) ;;
    lret 1
  else
    lua_pop 1 ;;
    (* key not found, return nil *)
    lua_pushnil ;;
    lret 1.

(** [hslua_cachedindex]: access a userdata, but use caching. *)
Definition hslua_cachedindex : LuaM World Z :=
  lua_settop 2 ;;
  (* Use value in caching table if present *)
  hsluaP_get_caching_table 1 ;;
  lua_pushvalue 2 ;;
  ty <- lua_rawget 3 ;;
  if negb (ty =? LUA_TNIL) then lret 1
  else
    lua_pop 1 ;;
    tg <- luaL_getmetafield 1 "getters" ;;
    if tg =? LUA_TTABLE then
      lua_pushvalue 2 ;;
      ty <- lua_rawget (-2) ;;
      if negb (ty =? LUA_TNIL) then
        lua_pushvalue 1 ;;
        lua_call 1 1 ;;
        (* key found in wrapped userdata, add to caching table *)
        lua_pushvalue 2 ;;
        lua_pushvalue (-2) ;;
        lua_rawset 3 ;;
        lret 1
      else
        lua_pop 1 ;;
        cachedindex_methods
    else cachedindex_methods.

(** [hslua_cachedsetindex]: store a value in the caching table. *)
Definition hslua_cachedsetindex : LuaM World Z :=
  luaL_checkany 3 ;;
  lua_settop 3 ;;
  hsluaP_get_caching_table 1 ;;
  lua_insert 2 ;;
  lua_rawset 2 ;;
  lret 0.

(** ** Calling a C function *)

(** What the caller of a C function sees: the values it returned, or the
    error it raised, with the heap it left and the interpreter calls it
    made; [Crashed] when it broke the contract of the API. *)
Inductive outcome : Type :=
| Returned (results : list value) (h : Heap World) (calls : list event)
| Raised (e : lua_error_obj) (h : Heap World) (calls : list event)
| Crashed.

(** [luaD_precall] on a C function: a frame holding the arguments; the
    function's return value counts the results, taken from the top. *)
Definition call_cfunction (f : LuaM World Z) (args : list value)
    (h : Heap World) : outcome :=
  match f (mkState args h []) with
  | Ok n L =>
      if (0 <=? n) && (n <=? gettop L)
      then Returned (drop (length (stack L) - Z.to_nat n) (stack L))
                    (heap L) (trace L)
      else Crashed
  | Error e L => Raised e (heap L) (trace L)
  | Undefined => Crashed
  end.

(** The interpreter calls a C function made, when it ran to an end. *)
Definition outcome_calls (o : outcome) : option (list event) :=
  match o with
  | Returned _ _ calls | Raised _ _ calls => Some calls
  | Crashed => None
  end.

Definition outcome_results (o : outcome) : option (list value) :=
  match o with
  | Returned results _ _ => Some results
  | Raised _ _ _ | Crashed => None
  end.

(** The operations as the interpreter invokes them: [__index] and
    [__newindex] on a proxy, [__index] on a wrapping table. *)
Definition cachedindex (h : Heap World) (u : loc) (key : value) : outcome :=
  call_cfunction hslua_cachedindex [VUserdata u; key] h.

Definition cachedsetindex (h : Heap World) (u : loc) (key v : value)
  : outcome :=
  call_cfunction hslua_cachedsetindex [VUserdata u; key; v] h.

Definition wrappedudindex (h : Heap World) (t : loc) (key : value)
  : outcome :=
  call_cfunction hslua_wrappedudindex [VTable t; key] h.

(** The bootstrap helper run on a proxy alone: the cache it leaves on the
    stack and the heap afterwards. *)
Definition get_caching_table (h : Heap World) (u : loc)
  : option (value * Heap World) :=
  match hsluaP_get_caching_table 1 (mkState [VUserdata u] h []) with
  | Ok _ L =>
      match stack L with
      | [_; c] => Some (c, heap L)
      | _ => None
      end
  | _ => None
  end.

End Packaging.

(** ** The proxy's three tiers, read off the heap *)

Section Tiers.
Context {World : Type}.
Implicit Types (h : Heap World) (u : loc) (key : value).

Definition uservalue h u : value := ud_uservalue (get_udata h u).

(** The proxy's cache slot holds what the helper leaves there: nothing yet,
    or a table. *)
Definition is_proxy h u : bool :=
  match uservalue h u with
  | VNil | VTable _ => true
  | _ => false
  end.

Definition cache_entry h u key : value :=
  match uservalue h u with
  | VTable c => luaH_get (get_table h c) key
  | _ => VNil
  end.

(** [luaL_getmetafield] as a function of the heap. *)
Definition metafield h (obj : value) (event : string) : value :=
  match metatable_of h obj with
  | Some mt => luaH_get (get_table h mt) (VString event)
  | None => VNil
  end.

(** An entry of a table of the class descriptor; nil when the metafield is
    not a table. *)
Definition class_entry h u (event : string) key : value :=
  match metafield h (VUserdata u) event with
  | VTable t => luaH_get (get_table h t) key
  | _ => VNil
  end.

Definition class_getter h u key : value := class_entry h u "getters" key.
Definition class_method h u key : value := class_entry h u "methods" key.

(** The heap once the proxy has its cache, and the cache's address. *)
Definition cache_loc h u : loc :=
  match uservalue h u with
  | VTable c => c
  | _ => fresh_table h
  end.

Definition with_cache h u : Heap World :=
  match uservalue h u with
  | VNil =>
      let c := fresh_table h in
      set_udata (set_table h c empty_table) u
                (mkUdata (VTable c) (ud_metatable (get_udata h u)))
  | _ => h
  end.

(** The heap after a write of [v] under the proper key [k'] to the proxy's
    cache. *)
Definition cache_write h u (k' v : value) : Heap World :=
  let c := cache_loc h u in
  set_table (with_cache h u) c
            (table_store (get_table (with_cache h u) c) k' v).

End Tiers.

(** ** A small host: one native counter, four native functions *)

Module Example.

(** The host's state is one integer.  Function 1 is a getter that reports
    it, function 2 a getter that reports it and then advances it, function 3
    a getter whose field is absent (nil), function 4 one that fails; any
    other value is not callable.  Indexing a userdata yields the counter
    for the key [x] and nil for any other key. *)
Definition native_call (f : value) (args : list value) (h : Heap Z)
  : callee Z (list value) :=
  match f with
  | VFunction 1 => Returns [VInteger (host h)] h
  | VFunction 2 =>
      Returns [VInteger (host h)]
              (mkHeap (tables h) (udata h) (basic_mt h) (host h + 1))
  | VFunction 3 => Returns [VNil] h
  | VFunction 4 => Throws (ErrorValue (VString "native failure")) h
  | _ => Throws (RunError "attempt to call a value") h
  end.

Definition native_index (obj key : value) (h : Heap Z) : callee Z value :=
  match obj with
  | VUserdata _ =>
      match key with
      | VString "x" => Returns (VInteger (host h)) h
      | _ => Returns VNil h
      end
  | VTable _ => Returns VNil h
  | _ => Throws (RunError "attempt to index a value") h
  end.

#[export] Instance interp : Interpreter Z :=
  {| luaD_call := native_call; luaV_finishget := native_index |}.

Definition table_of (entries : list (value * value)) : Table :=
  mkTable (list_to_map entries) None.

(** Proxy 1 of a class with getters [size], [tick], [gone], [boom] and
    method [close]; proxy 3 is of the same class and has table 30 as its
    cache, with an entry for [size]; proxy 2 is wrapped by table 20; table
    21 wraps nothing; table 22 wraps nothing but has an entry of its own. *)
Definition objects : gmap loc Table :=
  list_to_map
    [ (10%positive, table_of [(VString "getters", VTable 11);
                              (VString "methods", VTable 12)]);
      (11%positive, table_of [(VString "size", VFunction 1);
                              (VString "tick", VFunction 2);
                              (VString "gone", VFunction 3);
                              (VString "boom", VFunction 4)]);
      (12%positive, table_of [(VString "close", VFunction 9)]);
      (20%positive, table_of [(VString "_hslua_value", VUserdata 2)]);
      (21%positive, table_of []);
      (22%positive, table_of [(VString "x", VInteger 1)]);
      (30%positive, table_of [(VString "size", VInteger 3)]) ].

Definition proxies : gmap loc Udata :=
  list_to_map
    [ (1%positive, mkUdata VNil (Some 10%positive));
      (2%positive, mkUdata VNil None);
      (3%positive, mkUdata (VTable 30) (Some 10%positive)) ].

Definition heap0 (counter : Z) : Heap Z := mkHeap objects proxies ∅ counter.

End Example.

(** ** A second host: every field present, one that fails *)

Module Strict.

(** Indexing a userdata raises for the key [fail] and yields the host's
    counter for every other key, nil and NaN included. *)
Definition native_index (obj key : value) (h : Heap Z) : callee Z value :=
  match obj with
  | VUserdata _ =>
      match key with
      | VString "fail" => Throws (ErrorValue (VString "no such field")) h
      | _ => Returns (VInteger (host h)) h
      end
  | _ => Throws (RunError "attempt to index a value") h
  end.

Definition interp : Interpreter Z :=
  {| luaD_call := Example.native_call; luaV_finishget := native_index |}.

End Strict.

(** ** A third host: a getter that re-attaches the cache *)

Module Detach.

(** Function 1 is a getter that returns nil after it has made table 30 the
    user value of userdata 1, as a native function can with
    [lua_setuservalue]; nothing else is callable. *)
Definition native_call (f : value) (args : list value) (h : Heap Z)
  : callee Z (list value) :=
  match f with
  | VFunction 1 =>
      Returns [VNil]
              (set_udata h 1
                 (mkUdata (VTable 30) (ud_metatable (get_udata h 1))))
  | _ => Throws (RunError "attempt to call a value") h
  end.

Definition interp : Interpreter Z :=
  {| luaD_call := native_call;
     luaV_finishget := Example.native_index |}.

End Detach.

(** * Properties *)

(** ** Keys and raw table access *)

Lemma ttype_not_nil (v : value) : v ≠ VNil → (ttype v =? 0) = false.
Proof. destruct v; cbn; congruence. Qed.

Lemma ttype_not_none (v : value) : (ttype v =? -1) = false.
Proof. by destruct v. Qed.

(** A key that reads as something is a proper key. *)
Lemma luaH_get_proper (t : Table) (k v : value) :
  luaH_get t k = v → v ≠ VNil → ∃ k', classify_key k = Key k'.
Proof.
  unfold luaH_get. destruct (classify_key k); eauto; congruence.
Qed.

Lemma luaH_get_store_same (t : Table) (k k' v : value) :
  classify_key k = Key k' → luaH_get (table_store t k' v) k = v.
Proof.
  intros Hk. unfold luaH_get, table_store. rewrite Hk. cbn.
  destruct v; cbn; rewrite ?lookup_delete_eq, ?lookup_insert_eq; reflexivity.
Qed.

Lemma luaH_get_store_nil (t : Table) (k0 k' k : value) :
  luaH_get t k0 = VNil → classify_key k0 = Key k' →
  luaH_get (table_store t k' VNil) k = luaH_get t k.
Proof.
  unfold luaH_get, table_store. intros H0 Hk0. rewrite Hk0 in H0. cbn.
  destruct (classify_key k) as [| |k2]; try reflexivity.
  destruct (decide (k2 = k')) as [->|Hne].
  - by rewrite lookup_delete_eq, H0.
  - by rewrite lookup_delete_ne.
Qed.

Lemma luaH_get_empty (k : value) : luaH_get empty_table k = VNil.
Proof. unfold luaH_get. destruct (classify_key k); reflexivity. Qed.

(** ** Heap access *)

Section HeapLaws.
Context {World : Type}.
Implicit Types (h : Heap World) (l u : loc).

Lemma get_set_table h l t : get_table (set_table h l t) l = t.
Proof. unfold get_table, set_table. cbn. by rewrite lookup_insert_eq. Qed.

Lemma get_set_table_ne h l l' t :
  l ≠ l' → get_table (set_table h l t) l' = get_table h l'.
Proof.
  intros. unfold get_table, set_table. cbn. by rewrite lookup_insert_ne.
Qed.

Lemma get_udata_set_table h l t u :
  get_udata (set_table h l t) u = get_udata h u.
Proof. reflexivity. Qed.

Lemma get_table_set_udata h u d l :
  get_table (set_udata h u d) l = get_table h l.
Proof. reflexivity. Qed.

Lemma get_set_udata h u d : get_udata (set_udata h u d) u = d.
Proof. unfold get_udata, set_udata. cbn. by rewrite lookup_insert_eq. Qed.

Lemma fresh_table_above h l :
  is_Some (tables h !! l) → (l < fresh_table h)%positive.
Proof.
  unfold fresh_table.
  generalize (tables h). intros m. revert l.
  apply (map_fold_weak_ind
           (λ (b : positive) (m : gmap loc Table),
              ∀ l, is_Some (m !! l) → (l < Pos.succ b)%positive)).
  - intros l [x Hx]. by rewrite lookup_empty in Hx.
  - intros i x m' r Hi IH l [y Hy].
    destruct (decide (i = l)) as [->|Hne].
    + lia.
    + rewrite lookup_insert_ne in Hy by done.
      specialize (IH l (ex_intro _ y Hy)). lia.
Qed.

Lemma fresh_table_unused h : tables h !! fresh_table h = None.
Proof.
  destruct (tables h !! fresh_table h) eqn:E; [|done].
  pose proof (fresh_table_above h (fresh_table h) (ex_intro _ _ E)). lia.
Qed.

(** Creating a table changes what no address reads as. *)
Lemma get_table_create h l :
  get_table (set_table h (fresh_table h) empty_table) l = get_table h l.
Proof.
  destruct (decide (fresh_table h = l)) as [<-|Hne].
  - rewrite get_set_table. unfold get_table.
    by rewrite fresh_table_unused.
  - by apply get_set_table_ne.
Qed.

End HeapLaws.

(** ** The stack *)

Ltac leb_true :=
  match goal with
  | |- context [?a <=? ?b] => rewrite (proj2 (Z.leb_le a b)) by lia
  end.

Section StackLaws.
Context {World : Type}.
Implicit Types (h : Heap World) (s : list value) (tr : list event).

Lemma index2value_bottom s h tr v :
  s !! 0%nat = Some v → index2value (mkState s h tr) 1 = Some v.
Proof.
  intros Hv. unfold index2value, stack_slot, gettop. cbn.
  destruct s as [|x s]; [done|]. cbn [length].
  leb_true. done.
Qed.

Lemma index2value_top s h tr v :
  index2value (mkState (s ++ [v]) h tr) (-1) = Some v.
Proof.
  unfold index2value, stack_slot, gettop. cbn.
  rewrite length_app. cbn. leb_true.
  replace (Z.to_nat (Z.of_nat (length s + 1) + -1)) with (length s) by lia.
  apply list_lookup_middle. done.
Qed.

Lemma index2value_under_top s h tr v w :
  index2value (mkState (s ++ [v; w]) h tr) (-2) = Some v.
Proof.
  unfold index2value, stack_slot, gettop. cbn.
  rewrite length_app. cbn. leb_true.
  replace (Z.to_nat (Z.of_nat (length s + 2) + -2)) with (length s) by lia.
  apply list_lookup_middle. done.
Qed.

Lemma but_last_snoc s v : but_last (s ++ [v]) = s.
Proof.
  unfold but_last. rewrite length_app. cbn.
  apply take_app_length'. lia.
Qed.

Lemma pop_value_snoc s h tr v :
  pop_value (mkState (s ++ [v]) h tr) = Ok v (mkState s h tr).
Proof.
  unfold pop_value. cbn. by rewrite last_snoc, but_last_snoc.
Qed.

Lemma lua_pop_one s h tr v :
  lua_pop 1 (mkState (s ++ [v]) h tr) = Ok tt (mkState s h tr).
Proof.
  unfold lua_pop, lua_settop, gettop. cbn. rewrite length_app. cbn.
  leb_true. f_equal. f_equal. apply take_app_length'. lia.
Qed.

Lemma lua_pop_two s h tr v w :
  lua_pop 2 (mkState (s ++ [v; w]) h tr) = Ok tt (mkState s h tr).
Proof.
  unfold lua_pop, lua_settop, gettop. cbn. rewrite length_app. cbn.
  leb_true. f_equal. f_equal. apply take_app_length'. lia.
Qed.

Lemma lua_remove_under_top s h tr v w :
  lua_remove (-2) (mkState (s ++ [v; w]) h tr)
  = Ok tt (mkState (s ++ [w]) h tr).
Proof.
  unfold lua_remove, stack_slot, gettop. cbn. rewrite length_app. cbn.
  leb_true.
  replace (Z.to_nat (Z.of_nat (length s + 2) + -2)) with (length s + 0)%nat
    by lia.
  f_equal. f_equal. induction s; cbn; [done|]. by f_equal.
Qed.

Lemma index2value_second s h tr v :
  s !! 1%nat = Some v → index2value (mkState s h tr) 2 = Some v.
Proof.
  intros Hv. unfold index2value, stack_slot, gettop. cbn.
  pose proof (lookup_lt_Some _ _ _ Hv). leb_true. done.
Qed.

Lemma lua_pop_nonempty s h tr x :
  s !! 0%nat = Some x →
  lua_pop 1 (mkState s h tr) = Ok tt (mkState (but_last s) h tr).
Proof.
  intros Hx. pose proof (lookup_lt_Some _ _ _ Hx).
  unfold lua_pop, lua_settop, gettop, but_last. cbn. leb_true.
  do 3 f_equal. lia.
Qed.

End StackLaws.

(** ** The tiers and the bootstrap *)

Section TierLaws.
Context {World : Type}.
Implicit Types (h : Heap World) (u : loc) (key : value).

Lemma get_table_with_cache h u l :
  get_table (with_cache h u) l = get_table h l.
Proof.
  unfold with_cache. destruct (uservalue h u); try reflexivity.
  rewrite get_table_set_udata. apply get_table_create.
Qed.

Lemma uservalue_with_cache h u :
  is_proxy h u = true → uservalue (with_cache h u) u = VTable (cache_loc h u).
Proof.
  unfold is_proxy, with_cache, cache_loc.
  destruct (uservalue h u) eqn:E; try discriminate; intros _.
  - unfold uservalue. by rewrite get_set_udata.
  - exact E.
Qed.

Lemma metatable_with_cache h u :
  ud_metatable (get_udata (with_cache h u) u) = ud_metatable (get_udata h u).
Proof.
  unfold with_cache. destruct (uservalue h u); try reflexivity.
  by rewrite get_set_udata.
Qed.

Lemma is_proxy_with_cache h u :
  is_proxy h u = true → is_proxy (with_cache h u) u = true.
Proof.
  intros Hp. unfold is_proxy. by rewrite uservalue_with_cache.
Qed.

Lemma with_cache_attached h u c :
  uservalue h u = VTable c → with_cache h u = h.
Proof. intros E. unfold with_cache. by rewrite E. Qed.

Lemma cache_entry_with_cache h u key :
  is_proxy h u = true → cache_entry (with_cache h u) u key = cache_entry h u key.
Proof.
  intros Hp. unfold cache_entry at 1.
  rewrite uservalue_with_cache by done. rewrite get_table_with_cache.
  unfold cache_entry, cache_loc. unfold is_proxy in Hp.
  destruct (uservalue h u) eqn:E; try discriminate; [|done].
  unfold get_table. rewrite fresh_table_unused. cbn. apply luaH_get_empty.
Qed.

Lemma cache_entry_at h u key :
  is_proxy h u = true →
  luaH_get (get_table (with_cache h u) (cache_loc h u)) key
  = cache_entry h u key.
Proof.
  intros Hp. rewrite <- (cache_entry_with_cache h u key Hp).
  unfold cache_entry. by rewrite uservalue_with_cache.
Qed.

Lemma metafield_with_cache h u event :
  metafield (with_cache h u) (VUserdata u) event
  = metafield h (VUserdata u) event.
Proof.
  unfold metafield. cbn. rewrite metatable_with_cache.
  destruct (ud_metatable (get_udata h u)); [|done].
  by rewrite get_table_with_cache.
Qed.

Lemma class_entry_with_cache h u event key :
  class_entry (with_cache h u) u event key = class_entry h u event key.
Proof.
  unfold class_entry. rewrite metafield_with_cache.
  destruct (metafield h (VUserdata u) event); try done.
  by rewrite get_table_with_cache.
Qed.

Lemma class_method_with_cache h u key :
  class_method (with_cache h u) u key = class_method h u key.
Proof. apply class_entry_with_cache. Qed.

(** A write to the cache is read back, and leaves the attachment alone. *)
Lemma cache_entry_store h u key k' v c :
  uservalue h u = VTable c → classify_key key = Key k' →
  cache_entry (set_table h c (table_store (get_table h c) k' v)) u key = v.
Proof.
  intros E Hk. unfold cache_entry, uservalue in *.
  rewrite get_udata_set_table, E, get_set_table.
  by apply luaH_get_store_same.
Qed.

End TierLaws.

(** Unfolding of the API operations down to the stack and heap accesses,
    which are rewritten with the laws above. *)
Ltac lua_unfold :=
  cbv beta iota zeta delta
    [lbind lret raise undefined get_heap put_heap push lua_pushvalue
     lua_pushnil lua_pushliteral lua_pushstring acceptable_value valid_value
     lua_type lua_rawget lua_rawset lua_gettable finishget lua_createtable
     lua_getuservalue lua_setuservalue lua_getmetatable lua_error
     luaL_checktype luaL_checkany lua_absindex stack heap trace].

Ltac lua_consts :=
  cbn [ttype];
  cbv delta
    [LUA_TNONE LUA_TNIL LUA_TBOOLEAN LUA_TLIGHTUSERDATA LUA_TNUMBER
     LUA_TSTRING LUA_TTABLE LUA_TFUNCTION LUA_TUSERDATA LUA_TTHREAD];
  cbn [Z.eqb Z.ltb Z.leb Z.compare Z.opp Z.sub Z.add Pos.eqb Pos.compare
       Pos.compare_cont negb andb].

Section HelperLaws.
Context {World : Type} `{!Interpreter World}.
Implicit Types (h : Heap World) (s : list value) (tr : list event).

(** [luaL_getmetafield] on the first argument pushes the metafield, or
    nothing when there is none. *)
Lemma luaL_getmetafield_spec s h tr obj event :
  s !! 0%nat = Some obj →
  luaL_getmetafield 1 event (mkState s h tr)
  = match metafield h obj event with
    | VNil => Ok LUA_TNIL (mkState s h tr)
    | v => Ok (ttype v) (mkState (s ++ [v]) h tr)
    end.
Proof.
  intros Hobj. unfold luaL_getmetafield, metafield. lua_unfold.
  rewrite (index2value_bottom _ _ _ _ Hobj).
  destruct (metatable_of h obj) as [mt|]; [|reflexivity].
  lua_consts. rewrite <- app_assoc. cbn [app].
  rewrite index2value_under_top.
  change (s ++ [VTable mt; VString event])
    with (s ++ [VTable mt] ++ [VString event]).
  rewrite app_assoc, pop_value_snoc. rewrite <- app_assoc. cbn [app].
  set (v := luaH_get (get_table h mt) (VString event)).
  destruct v; lua_consts;
    rewrite ?lua_pop_two, ?lua_remove_under_top; reflexivity.
Qed.

(** The helper on a proxy as first argument: the user value ends up on
    top, after a table was created and attached if it was nil. *)
Lemma hsluaP_get_caching_table_spec s h tr u :
  s !! 0%nat = Some (VUserdata u) →
  hsluaP_get_caching_table 1 (mkState s h tr)
  = match uservalue h u with
    | VNil => Ok tt (mkState (s ++ [VTable (fresh_table h)])
                             (with_cache h u) tr)
    | c => Ok tt (mkState (s ++ [c]) h tr)
    end.
Proof.
  intros Hu. unfold hsluaP_get_caching_table. lua_unfold.
  rewrite (index2value_bottom _ _ _ _ Hu).
  fold (uservalue h u). unfold with_cache.
  destruct (uservalue h u) eqn:E; lua_consts; try reflexivity.
  rewrite lua_pop_one. rewrite index2value_top.
  rewrite (index2value_bottom _ _ _ (VUserdata u))
    by (rewrite <- app_assoc; destruct s; [done | exact Hu]).
  rewrite pop_value_snoc. reflexivity.
Qed.

End HelperLaws.

(** ** The read and the write, path by path *)

(** Running one operation on a state whose stack has a known length: the
    operation is evaluated down to the heap accesses and the interpreter
    calls, which stay as they are and are rewritten with the laws above. *)
Ltac lua_eval t :=
  eval cbv beta iota zeta delta
    [lbind lret raise undefined get_heap put_heap push lua_pushvalue
     lua_pushnil lua_pushliteral lua_pushstring acceptable_value valid_value
     lua_type lua_rawget lua_rawset lua_gettable finishget lua_createtable
     lua_getuservalue lua_setuservalue lua_getmetatable lua_error
     luaL_checktype luaL_checkany lua_absindex
     index2value stack_slot gettop lua_settop lua_pop pop_value but_last
     lua_insert lua_remove lua_call adjust_results stack heap trace
     resize replicate length app lookup list_lookup delete list_delete
     take drop last hd
     Z.to_nat Z.of_nat Pos.to_nat Pos.iter_op Pos.of_succ_nat Pos.succ
     Pos.add Pos.pred_double Pos.pred Nat.add Nat.sub Nat.pred Nat.leb
     Z.leb Z.ltb Z.compare Z.opp Z.add Z.sub Z.pos_sub Z.succ_double
     Z.pred_double Z.double Pos.compare Pos.compare_cont CompOpp
     andb] in t.

Ltac lua_step :=
  lazymatch goal with
  | |- context [lbind ?m ?k ?L] =>
      let r := lua_eval (m L) in
      change (lbind m k L) with
        (match r with
         | Ok a L' => k a L'
         | Error e L' => Error e L'
         | Undefined => Undefined
         end);
      cbv beta iota
  end.

(** Settling a test on a type tag once the value is known. *)
Ltac lua_test :=
  cbn [ttype];
  cbv delta
    [LUA_TNONE LUA_TNIL LUA_TBOOLEAN LUA_TLIGHTUSERDATA LUA_TNUMBER
     LUA_TSTRING LUA_TTABLE LUA_TFUNCTION LUA_TUSERDATA LUA_TTHREAD];
  cbn [negb andb Z.eqb Pos.eqb];
  cbv beta iota.

Ltac lua_steps := repeat (lua_step; lua_test).

Section ReadWrite.
Context {World : Type} `{!Interpreter World}.
Implicit Types (h : Heap World) (u : loc) (key : value).
Implicit Types (s : list value) (tr : list event).

Lemma call_cfunction_returns_one (f : LuaM World Z) args h h' tr v :
  (∃ s, f (mkState args h []) = Ok 1 (mkState s h' tr) ∧ last s = Some v) →
  call_cfunction f args h = Returned [v] h' tr.
Proof.
  intros (s & E & Hv). unfold call_cfunction. rewrite E.
  unfold gettop. cbn [stack heap trace].
  destruct s as [|x s0] using rev_ind; [discriminate|].
  rewrite last_snoc in Hv. injection Hv as ->.
  rewrite length_app. cbn [length].
  replace (length s0 + 1 - Z.to_nat 1)%nat with (length s0) by lia.
  rewrite (proj2 (Z.leb_le 1 (Z.of_nat (length s0 + 1)))) by lia.
  cbn [Z.leb Z.compare andb]. f_equal. apply drop_app_length.
Qed.

Lemma call_cfunction_returns_none (f : LuaM World Z) args h h' tr :
  (∃ s, f (mkState args h []) = Ok 0 (mkState s h' tr)) →
  call_cfunction f args h = Returned [] h' tr.
Proof.
  intros [s E]. unfold call_cfunction. rewrite E.
  unfold gettop. cbn [stack heap trace].
  rewrite (proj2 (Z.leb_le 0 (Z.of_nat (length s)))) by lia.
  cbn [Z.leb Z.compare andb Z.to_nat]. f_equal.
  rewrite Nat.sub_0_r. apply drop_all.
Qed.

Lemma call_cfunction_raises (f : LuaM World Z) args h e h' tr :
  (∃ s, f (mkState args h []) = Error e (mkState s h' tr)) →
  call_cfunction f args h = Raised e h' tr.
Proof. intros [s E]. unfold call_cfunction. by rewrite E. Qed.

(** On a proxy the helper pushes the cache and leaves the heap in which the
    proxy has it. *)
Lemma get_caching_table_proxy s h tr u :
  is_proxy h u = true → s !! 0%nat = Some (VUserdata u) →
  hsluaP_get_caching_table 1 (mkState s h tr)
  = Ok tt (mkState (s ++ [VTable (cache_loc h u)]) (with_cache h u) tr).
Proof.
  intros Hp Hu. rewrite (hsluaP_get_caching_table_spec _ _ _ u) by done.
  unfold is_proxy in Hp. unfold with_cache, cache_loc.
  destruct (uservalue h u); try discriminate; reflexivity.
Qed.

(** The methods tier returns the class's method for the key, nil included,
    and touches nothing. *)
Lemma cachedindex_methods_spec s h tr u key :
  s !! 0%nat = Some (VUserdata u) → s !! 1%nat = Some key →
  ∃ s', cachedindex_methods (mkState s h tr) = Ok 1 (mkState s' h tr)
        ∧ last s' = Some (class_method h u key).
Proof.
  intros Hu Hk. unfold cachedindex_methods, class_method, class_entry.
  lua_unfold. rewrite (luaL_getmetafield_spec _ _ _ _ _ Hu).
  destruct (metafield h (VUserdata u) "methods") eqn:E; lua_consts;
    try (rewrite lua_pop_one; eexists; split; [done | apply last_snoc]).
  - rewrite (lua_pop_nonempty _ _ _ _ Hu).
    eexists; split; [done | apply last_snoc].
  - rewrite (index2value_second _ _ _ key)
      by (rewrite lookup_app_l; [done | by eapply lookup_lt_Some]).
    lua_unfold. rewrite <- app_assoc. cbn [app].
    rewrite index2value_under_top.
    change (s ++ [VTable l; key]) with (s ++ [VTable l] ++ [key]).
    rewrite app_assoc, pop_value_snoc. lua_unfold.
    eexists; split; [done | apply last_snoc].
Qed.

(** Neither cached nor computed: the method, or nil. *)
Lemma cachedindex_none h u key :
  is_proxy h u = true →
  cache_entry h u key = VNil →
  class_getter h u key = VNil →
  cachedindex h u key
  = Returned [class_method h u key] (with_cache h u) [].
Proof.
  intros Hp Hc Hg. apply call_cfunction_returns_one.
  unfold hslua_cachedindex. lua_steps.
  rewrite (get_caching_table_proxy _ _ _ u) by done. cbv beta iota.
  lua_steps. rewrite cache_entry_at, Hc by done. lua_test. lua_steps.
  rewrite (luaL_getmetafield_spec _ _ _ (VUserdata u)) by done.
  rewrite metafield_with_cache.
  unfold class_getter, class_entry in Hg.
  rewrite <- (class_method_with_cache h u key).
  destruct (metafield h (VUserdata u) "getters") eqn:E; lua_test;
    try (by apply cachedindex_methods_spec).
  lua_steps. rewrite get_table_with_cache, Hg. lua_test. lua_steps.
  by apply cachedindex_methods_spec.
Qed.

(** Cached: the cache answers, nothing else is consulted. *)
Lemma cachedindex_cached h u key v :
  is_proxy h u = true →
  cache_entry h u key = v → v ≠ VNil →
  cachedindex h u key = Returned [v] h [].
Proof.
  intros Hp Hc Hv. apply call_cfunction_returns_one.
  assert (with_cache h u = h) as Hw.
  { unfold cache_entry in Hc. unfold with_cache.
    destruct (uservalue h u); congruence. }
  unfold hslua_cachedindex. lua_steps.
  rewrite (get_caching_table_proxy _ _ _ u) by done. cbv beta iota.
  lua_steps. rewrite cache_entry_at, Hc, Hw by done.
  destruct v; try congruence; lua_test; by eexists.
Qed.

(** Computed: the getter runs once on the proxy, and its result is filed
    in the cache that was on the stack. *)
Lemma cachedindex_getter h u key k' g :
  is_proxy h u = true →
  cache_entry h u key = VNil →
  class_getter h u key = g → g ≠ VNil →
  classify_key key = Key k' →
  cachedindex h u key
  = match luaD_call g [VUserdata u] (with_cache h u) with
    | Returns rets h2 =>
        let c := cache_loc h u in
        Returned [hd VNil rets]
                 (set_table h2 c (table_store (get_table h2 c) k' (hd VNil rets)))
                 [EvCall g [VUserdata u]]
    | Throws e h2 => Raised e h2 [EvCall g [VUserdata u]]
    end.
Proof.
  intros Hp Hc Hg Hne Hk.
  destruct (luaD_call g [VUserdata u] (with_cache h u))
    as [rets h2|e h2] eqn:Ecall.
  - apply call_cfunction_returns_one.
    unfold hslua_cachedindex. lua_steps.
    rewrite (get_caching_table_proxy _ _ _ u) by done. cbv beta iota.
    lua_steps. rewrite cache_entry_at, Hc by done. lua_test. lua_steps.
    rewrite (luaL_getmetafield_spec _ _ _ (VUserdata u)) by done.
    rewrite metafield_with_cache.
    unfold class_getter, class_entry in Hg.
    destruct (metafield h (VUserdata u) "getters") eqn:E; try congruence.
    lua_test. lua_steps. rewrite get_table_with_cache, Hg.
    rewrite (ttype_not_nil g Hne). lua_test.
    lua_step. lua_step. rewrite Ecall. cbv beta iota.
    destruct rets as [|r [|r' rets]]; cbn [hd]; lua_steps;
      rewrite Hk; eexists; (split; [reflexivity | reflexivity]).
  - apply call_cfunction_raises.
    unfold hslua_cachedindex. lua_steps.
    rewrite (get_caching_table_proxy _ _ _ u) by done. cbv beta iota.
    lua_steps. rewrite cache_entry_at, Hc by done. lua_test. lua_steps.
    rewrite (luaL_getmetafield_spec _ _ _ (VUserdata u)) by done.
    rewrite metafield_with_cache.
    unfold class_getter, class_entry in Hg.
    destruct (metafield h (VUserdata u) "getters") eqn:E; try congruence.
    lua_test. lua_steps. rewrite get_table_with_cache, Hg.
    rewrite (ttype_not_nil g Hne). lua_test.
    lua_step. lua_step. rewrite Ecall. cbv beta iota. by eexists.
Qed.

(** The write files the value in the cache. *)
Lemma cachedsetindex_writes h u key k' v :
  is_proxy h u = true →
  classify_key key = Key k' →
  cachedsetindex h u key v = Returned [] (cache_write h u k' v) [].
Proof.
  intros Hp Hk. apply call_cfunction_returns_none.
  unfold hslua_cachedsetindex. lua_steps.
  rewrite ttype_not_none. lua_steps.
  rewrite (get_caching_table_proxy _ _ _ u) by done. cbv beta iota.
  lua_steps. rewrite Hk. by eexists.
Qed.

(** Nil and NaN are no keys: the raw write raises, after the bootstrap. *)
Lemma cachedsetindex_rejects_key h u key v :
  is_proxy h u = true →
  (∀ k', classify_key key ≠ Key k') →
  ∃ msg, cachedsetindex h u key v
         = Raised (RunError msg) (with_cache h u) [].
Proof.
  intros Hp Hk.
  destruct (classify_key key) as [| |k'] eqn:E; [| |by destruct (Hk k')].
  all: eexists; apply call_cfunction_raises;
    unfold hslua_cachedsetindex; lua_steps;
    rewrite ttype_not_none; lua_steps;
    rewrite (get_caching_table_proxy _ _ _ u) by done; cbv beta iota;
    lua_steps; rewrite E; by eexists.
Qed.

(** Read back what was written. *)
Lemma uservalue_cache_write h u k' v :
  is_proxy h u = true →
  uservalue (cache_write h u k' v) u = VTable (cache_loc h u).
Proof.
  intros Hp. unfold cache_write, uservalue.
  rewrite get_udata_set_table. by apply uservalue_with_cache.
Qed.

Lemma cache_entry_cache_write h u key k' v :
  is_proxy h u = true → classify_key key = Key k' →
  cache_entry (cache_write h u k' v) u key = v.
Proof.
  intros Hp Hk. unfold cache_write.
  apply cache_entry_store; [by apply uservalue_with_cache | done].
Qed.

Lemma is_proxy_cache_write h u k' v :
  is_proxy h u = true → is_proxy (cache_write h u k' v) u = true.
Proof.
  intros Hp. unfold is_proxy. by rewrite uservalue_cache_write.
Qed.

End ReadWrite.

Section Wrapped.
Context {World : Type} `{!Interpreter World}.
Implicit Types (h : Heap World) (t w : loc) (key : value).

(** An entry of the wrapping table itself is returned as it is. *)
Lemma wrappedudindex_local h t key v :
  luaH_get (get_table h t) key = v → v ≠ VNil →
  wrappedudindex h t key = Returned [v] h [].
Proof.
  intros Hv Hne. apply call_cfunction_returns_one.
  unfold hslua_wrappedudindex. lua_steps.
  rewrite Hv, (ttype_not_nil v Hne). lua_test. by eexists.
Qed.

(** Found in the wrapped userdata: copied into the wrapping table. *)
Lemma wrappedudindex_delegates h t w key :
  luaH_get (get_table h t) key = VNil →
  luaH_get (get_table h t) (VString "_hslua_value") = VUserdata w →
  wrappedudindex h t key
  = match luaV_finishget (VUserdata w) key h with
    | Returns v h' =>
        match v, classify_key key with
        | VNil, _ => Returned [VNil] h' [EvIndex (VUserdata w) key]
        | _, Key k' =>
            Returned [v]
                     (set_table h' t (table_store (get_table h' t) k' v))
                     [EvIndex (VUserdata w) key]
        | _, KeyNil =>
            Raised (RunError "table index is nil") h'
                   [EvIndex (VUserdata w) key]
        | _, KeyNaN =>
            Raised (RunError "table index is NaN") h'
                   [EvIndex (VUserdata w) key]
        end
    | Throws e h' => Raised e h' [EvIndex (VUserdata w) key]
    end.
Proof.
  intros Hl Hw.
  destruct (luaV_finishget (VUserdata w) key h) as [v h'|e h'] eqn:Ei.
  - destruct (decide (v = VNil)) as [->|Hne].
    + apply call_cfunction_returns_one.
      unfold hslua_wrappedudindex. lua_steps.
      rewrite Hl. lua_test. lua_steps. rewrite Hw. lua_test. lua_steps.
      rewrite Ei. lua_test. lua_steps. by eexists.
    + assert (match v, classify_key key with
              | VNil, _ => Returned [VNil] h' [EvIndex (VUserdata w) key]
              | _, Key k' =>
                  Returned [v]
                    (set_table h' t (table_store (get_table h' t) k' v))
                    [EvIndex (VUserdata w) key]
              | _, KeyNil =>
                  Raised (RunError "table index is nil") h'
                         [EvIndex (VUserdata w) key]
              | _, KeyNaN =>
                  Raised (RunError "table index is NaN") h'
                         [EvIndex (VUserdata w) key]
              end
              = match classify_key key with
                | Key k' =>
                    Returned [v]
                      (set_table h' t (table_store (get_table h' t) k' v))
                      [EvIndex (VUserdata w) key]
                | KeyNil =>
                    Raised (RunError "table index is nil") h'
                           [EvIndex (VUserdata w) key]
                | KeyNaN =>
                    Raised (RunError "table index is NaN") h'
                           [EvIndex (VUserdata w) key]
                end) as -> by (destruct v; congruence).
      destruct (classify_key key) as [| |k'] eqn:Ek.
      1,2: apply call_cfunction_raises.
      3: apply call_cfunction_returns_one.
      all: unfold hslua_wrappedudindex; lua_steps;
        rewrite Hl; lua_test; lua_steps; rewrite Hw; lua_test; lua_steps;
        rewrite Ei; cbv beta iota;
        rewrite (ttype_not_nil v Hne); lua_test; lua_steps;
        rewrite Ek; by eexists.
  - apply call_cfunction_raises.
    unfold hslua_wrappedudindex. lua_steps.
    rewrite Hl. lua_test. lua_steps. rewrite Hw. lua_test. lua_steps.
    rewrite Ei. by eexists.
Qed.

(** No userdata under the reserved key: the corrupted-object error. *)
Lemma wrappedudindex_corrupted h t key :
  luaH_get (get_table h t) key = VNil →
  ttype (luaH_get (get_table h t) (VString "_hslua_value")) ≠ LUA_TUSERDATA →
  wrappedudindex h t key
  = Raised (ErrorValue
              (VString "Corrupted object, wrapped userdata not found."))
           h [].
Proof.
  intros Hl Hw. apply call_cfunction_raises.
  apply Z.eqb_neq in Hw.
  unfold hslua_wrappedudindex. lua_steps.
  rewrite Hl. lua_test. lua_steps.
  change LUA_TUSERDATA with 7 in Hw. rewrite Hw. lua_test. lua_steps.
  by eexists.
Qed.

End Wrapped.

Section ReadLaws.
Context {World : Type} `{!Interpreter World}.
Implicit Types (h : Heap World) (u : loc) (key : value).

(** A read that misses the cache runs the class's getter for the key,
    once, on the proxy, however the getter ends. *)
Lemma cachedindex_miss_calls_getter h u key g :
  is_proxy h u = true →
  cache_entry h u key = VNil →
  class_getter h u key = g → g ≠ VNil →
  outcome_calls (cachedindex h u key) = Some [EvCall g [VUserdata u]].
Proof.
  intros Hp Hc Hg Hne.
  destruct (luaH_get_proper (match metafield h (VUserdata u) "getters" with
                             | VTable t => get_table h t
                             | _ => empty_table
                             end) key g) as [k' Hk]; [|done|].
  { unfold class_getter, class_entry in Hg.
    destruct (metafield h (VUserdata u) "getters"); try congruence.
    all: subst g; by rewrite luaH_get_empty in Hne. }
  rewrite (cachedindex_getter h u key k' g) by done.
  by destruct (luaD_call g [VUserdata u] (with_cache h u)).
Qed.

Lemma luaH_get_improper (t : Table) key :
  (∀ k', classify_key key ≠ Key k') → luaH_get t key = VNil.
Proof.
  intros Hk. unfold luaH_get.
  destruct (classify_key key) as [| |k']; [done | done | by destruct (Hk k')].
Qed.

Lemma get_caching_table_eq h u :
  get_caching_table h u
  = match uservalue h u with
    | VNil => Some (VTable (fresh_table h), with_cache h u)
    | c => Some (c, h)
    end.
Proof.
  unfold get_caching_table.
  rewrite (hsluaP_get_caching_table_spec _ _ _ u) by done.
  by destruct (uservalue h u).
Qed.

(** Storing nil under a key that reads as nil changes no reading of the
    heap. *)
Lemma class_entry_store_nil h c key k' u event k :
  luaH_get (get_table h c) key = VNil → classify_key key = Key k' →
  class_entry (set_table h c (table_store (get_table h c) k' VNil)) u event k
  = class_entry h u event k.
Proof.
  intros Hn Hk.
  set (h3 := set_table h c (table_store (get_table h c) k' VNil)).
  assert (∀ l k2, luaH_get (get_table h3 l) k2 = luaH_get (get_table h l) k2)
    as Hget.
  { intros l k2. unfold h3. destruct (decide (c = l)) as [<-|Hne].
    - rewrite get_set_table. by eapply luaH_get_store_nil.
    - by rewrite get_set_table_ne. }
  assert (metafield h3 (VUserdata u) event = metafield h (VUserdata u) event)
    as Hmf.
  { unfold metafield, metatable_of. unfold h3 at 1.
    rewrite get_udata_set_table.
    destruct (ud_metatable (get_udata h u)); [apply Hget | done]. }
  unfold class_entry. rewrite Hmf.
  destruct (metafield h (VUserdata u) event); done || apply Hget.
Qed.

End ReadLaws.

(** * The claims *)

Section CachedAccess.
Context {World : Type} `{!Interpreter World}.
Implicit Types (h : Heap World) (u : loc) (key v : value).

(** C1 (as amended: for a value other than nil).  After a write of a
    non-nil [v] under [key] has returned, a read of [key] on the heap the
    write left returns [v]; it is answered from the cache, makes no call
    into the interpreter and so runs no getter, whatever getter the class
    has for [key], and it leaves the heap as it is. *)
Theorem read_after_write h u key v results h1 calls :
  is_proxy h u = true →
  v ≠ VNil →
  cachedsetindex h u key v = Returned results h1 calls →
  cachedindex h1 u key = Returned [v] h1 [].
Proof.
  intros Hp Hv Hw.
  destruct (classify_key key) as [| |k'] eqn:Hk.
  1,2: destruct (cachedsetindex_rejects_key h u key v Hp) as [msg E];
    [intros k'; congruence | congruence].
  rewrite (cachedsetindex_writes h u key k' v Hp Hk) in Hw.
  injection Hw as <- <- <-.
  apply cachedindex_cached.
  - by apply is_proxy_cache_write.
  - by apply cache_entry_cache_write.
  - done.
Qed.

(** C2 (as amended: the value argument is absent, not nil).  Called with
    fewer than three arguments the write raises the argument error "value
    expected" for argument 3; the heap is the one it was called on, so the
    cache was neither changed nor created, and no call was made. *)
Theorem write_without_value_fails (args : list value) h :
  (length args < 3)%nat →
  call_cfunction hslua_cachedsetindex args h
  = Raised (ArgError 3 "value expected") h [].
Proof.
  intros Hlen.
  destruct args as [|a [|b [|c args]]]; [| | |cbn in Hlen; lia].
  all: apply call_cfunction_raises; unfold hslua_cachedsetindex;
    lua_steps; by eexists.
Qed.

(** C3 (as amended: the getter returns a value other than nil).  When the
    cache has no entry for [key] and the class has the getter [g] for it, and
    [g], run on the proxy, returns a non-nil [v] and leaves the proxy's cache
    attached, the read calls [g] once, with the proxy as only argument,
    returns [v] and files it in the cache under [key]; a second read on the
    heap so left returns [v] from the cache with no call at all. *)
Theorem getter_result_cached h u key g rets h2 v :
  is_proxy h u = true →
  cache_entry h u key = VNil →
  class_getter h u key = g → g ≠ VNil →
  luaD_call g [VUserdata u] (with_cache h u) = Returns rets h2 →
  hd VNil rets = v → v ≠ VNil →
  uservalue h2 u = VTable (cache_loc h u) →
  ∃ h3,
    cachedindex h u key = Returned [v] h3 [EvCall g [VUserdata u]]
    ∧ cache_entry h3 u key = v
    ∧ cachedindex h3 u key = Returned [v] h3 [].
Proof.
  intros Hp Hc Hg Hne Hcall Hv Hvn Hu2.
  destruct (luaH_get_proper (match metafield h (VUserdata u) "getters" with
                             | VTable t => get_table h t
                             | _ => empty_table
                             end) key g) as [k' Hk]; [|done|].
  { unfold class_getter, class_entry in Hg.
    destruct (metafield h (VUserdata u) "getters"); try congruence.
    all: subst g; by rewrite luaH_get_empty in Hne. }
  rewrite (cachedindex_getter h u key k' g) by done.
  rewrite Hcall, Hv. cbv zeta.
  set (c := cache_loc h u) in *.
  set (h3 := set_table h2 c (table_store (get_table h2 c) k' v)).
  assert (cache_entry h3 u key = v) as Hc3
    by (by apply cache_entry_store).
  exists h3. split; [done|]. split; [done|].
  apply cachedindex_cached; [|done|done].
  unfold is_proxy, uservalue, h3. rewrite get_udata_set_table.
  fold (uservalue h2 u). by rewrite Hu2.
Qed.

(** C5.  When the cache has no entry for [key], the class no getter for it
    and the method [m] for it, the read returns [m] and calls nothing; the
    heap it leaves is the one in which the proxy has its cache, and that
    cache still has no entry for [key]. *)
Theorem method_not_cached h u key m :
  is_proxy h u = true →
  cache_entry h u key = VNil →
  class_getter h u key = VNil →
  class_method h u key = m → m ≠ VNil →
  cachedindex h u key = Returned [m] (with_cache h u) []
  ∧ cache_entry (with_cache h u) u key = VNil.
Proof.
  intros Hp Hc Hg Hm _. split.
  - rewrite <- Hm. by apply cachedindex_none.
  - by rewrite cache_entry_with_cache.
Qed.

(** C8.  When [key] is in none of the cache, the class's getters and the
    class's methods, the read returns nil as its one result: it returns,
    it does not raise. *)
Theorem read_not_found h u key :
  is_proxy h u = true →
  cache_entry h u key = VNil →
  class_getter h u key = VNil →
  class_method h u key = VNil →
  cachedindex h u key = Returned [VNil] (with_cache h u) [].
Proof.
  intros Hp Hc Hg Hm. rewrite <- Hm. by apply cachedindex_none.
Qed.

(** C9.  A write of nil leaves the cache without an entry for [key],
    whatever it held before: for a proper key the write returns, for nil
    or NaN as key the raw write raises and there never was an entry.  A
    read on the heap so left goes past the cache: it runs the class's
    getter for [key] when there is one, and otherwise returns the class's
    method for [key], or nil. *)
Theorem write_nil_uncaches h u key :
  is_proxy h u = true →
  ∃ h1,
    (cachedsetindex h u key VNil = Returned [] h1 []
     ∨ ∃ msg, cachedsetindex h u key VNil = Raised (RunError msg) h1 [])
    ∧ cache_entry h1 u key = VNil
    ∧ (class_getter h1 u key = VNil →
       cachedindex h1 u key = Returned [class_method h1 u key] h1 [])
    ∧ (class_getter h1 u key ≠ VNil →
       outcome_calls (cachedindex h1 u key)
       = Some [EvCall (class_getter h1 u key) [VUserdata u]]).
Proof.
  intros Hp.
  assert (∀ h1, is_proxy h1 u = true → cache_entry h1 u key = VNil →
                uservalue h1 u = VTable (cache_loc h u) →
                (class_getter h1 u key = VNil →
                 cachedindex h1 u key
                 = Returned [class_method h1 u key] h1 [])
                ∧ (class_getter h1 u key ≠ VNil →
                   outcome_calls (cachedindex h1 u key)
                   = Some [EvCall (class_getter h1 u key) [VUserdata u]]))
    as Hread.
  { intros h1 Hp1 Hc1 Hu1. split.
    - intros Hg. rewrite (cachedindex_none h1 u key) by done.
      by rewrite (with_cache_attached h1 u _ Hu1).
    - intros Hg. by apply cachedindex_miss_calls_getter. }
  destruct (classify_key key) as [| |k'] eqn:Hk.
  3: { exists (cache_write h u k' VNil).
       split; [left; by apply cachedsetindex_writes|].
       assert (cache_entry (cache_write h u k' VNil) u key = VNil) as Hc1
         by (by apply cache_entry_cache_write).
       split; [done|].
       apply Hread; [by apply is_proxy_cache_write | done |].
       by apply uservalue_cache_write. }
  all: exists (with_cache h u);
    (split;
     [right; apply cachedsetindex_rejects_key; [done | congruence] |]);
    assert (cache_entry (with_cache h u) u key = VNil) as Hc1
      by (unfold cache_entry;
          destruct (uservalue (with_cache h u) u); try done;
          apply luaH_get_improper; congruence);
    (split; [done|]);
    apply Hread;
    [by apply is_proxy_with_cache | done | by apply uservalue_with_cache].
Qed.

(** C10 (as amended: the getter leaves the proxy's cache attached).  When
    the cache has no entry for [key] and the class's getter [g] for it, run
    on the proxy, returns nil and leaves the proxy's cache attached, the
    read calls [g], returns nil, and leaves the cache without an entry for
    [key].  Every read on a heap in which the cache has no entry for [key]
    and the class has [g] for it calls [g]; the heap the first read leaves
    is one of them when the getter left the class and the cache as they
    were. *)
Theorem nil_getter_runs_again h u key g rets h2 :
  is_proxy h u = true →
  cache_entry h u key = VNil →
  class_getter h u key = g → g ≠ VNil →
  luaD_call g [VUserdata u] (with_cache h u) = Returns rets h2 →
  hd VNil rets = VNil →
  uservalue h2 u = VTable (cache_loc h u) →
  ∃ h3,
    cachedindex h u key = Returned [VNil] h3 [EvCall g [VUserdata u]]
    ∧ is_proxy h3 u = true
    ∧ cache_entry h3 u key = VNil
    ∧ (cache_entry h2 u key = VNil → class_getter h2 u key = g →
       class_getter h3 u key = g)
    ∧ (∀ h', is_proxy h' u = true → cache_entry h' u key = VNil →
             class_getter h' u key = g →
             outcome_calls (cachedindex h' u key)
             = Some [EvCall g [VUserdata u]]).
Proof.
  intros Hp Hc Hg Hne Hcall Hv Hu2.
  destruct (luaH_get_proper (match metafield h (VUserdata u) "getters" with
                             | VTable t => get_table h t
                             | _ => empty_table
                             end) key g) as [k' Hk]; [|done|].
  { unfold class_getter, class_entry in Hg.
    destruct (metafield h (VUserdata u) "getters"); try congruence.
    all: subst g; by rewrite luaH_get_empty in Hne. }
  rewrite (cachedindex_getter h u key k' g) by done.
  rewrite Hcall, Hv. cbv zeta.
  set (c := cache_loc h u) in *.
  set (h3 := set_table h2 c (table_store (get_table h2 c) k' VNil)).
  exists h3. split; [done|]. split; [|split; [|split]].
  - unfold is_proxy, uservalue, h3. rewrite get_udata_set_table.
    fold (uservalue h2 u). by rewrite Hu2.
  - by apply cache_entry_store.
  - intros Hc2 Hg2. unfold class_getter, h3.
    rewrite (class_entry_store_nil h2 c key k'); [done | | done].
    unfold cache_entry in Hc2. by rewrite Hu2 in Hc2.
  - intros h' Hp' Hc' Hg'. by apply cachedindex_miss_calls_getter.
Qed.

(** C6.  The bootstrap helper on a userdata whose user value is not nil
    leaves that value on the stack and the heap as it is.  In general it
    yields a cache [c] and a heap on which a second call yields [c] again
    and changes nothing; and after an entry is put into the table [c], a
    further call still yields [c], unchanged, with the entry in it. *)
Theorem bootstrap_idempotent h u :
  (∀ c, uservalue h u = c → c ≠ VNil → get_caching_table h u = Some (c, h))
  ∧ ∃ c h1,
      get_caching_table h u = Some (c, h1)
      ∧ get_caching_table h1 u = Some (c, h1)
      ∧ ∀ l key k' v,
          c = VTable l → classify_key key = Key k' →
          let h2 := set_table h1 l (table_store (get_table h1 l) k' v) in
          get_caching_table h2 u = Some (c, h2)
          ∧ luaH_get (get_table h2 l) key = v.
Proof.
  assert (∀ h0 c, uservalue h0 u = c → c ≠ VNil →
                  get_caching_table h0 u = Some (c, h0)) as Hidem.
  { intros h0 c Hc Hne. rewrite get_caching_table_eq, Hc.
    by destruct c. }
  split; [apply Hidem|].
  assert (∀ h1 c, uservalue h1 u = c → c ≠ VNil →
            ∀ l key k' v,
              c = VTable l → classify_key key = Key k' →
              let h2 := set_table h1 l (table_store (get_table h1 l) k' v) in
              get_caching_table h2 u = Some (c, h2)
              ∧ luaH_get (get_table h2 l) key = v) as Hput.
  { intros h1 c Hc Hne l key k' v -> Hk h2. split.
    - apply Hidem; [|done]. unfold uservalue, h2.
      by rewrite get_udata_set_table.
    - unfold h2. rewrite get_set_table. by apply luaH_get_store_same. }
  destruct (decide (uservalue h u = VNil)) as [Hn|Hn].
  - assert (uservalue (with_cache h u) u = VTable (fresh_table h)) as Hu1.
    { rewrite uservalue_with_cache by (unfold is_proxy; by rewrite Hn).
      unfold cache_loc. by rewrite Hn. }
    exists (VTable (fresh_table h)), (with_cache h u).
    split; [by rewrite get_caching_table_eq, Hn|].
    split; [by apply Hidem|]. by apply Hput.
  - exists (uservalue h u), h.
    split; [by apply Hidem|]. split; [by apply Hidem|]. by apply Hput.
Qed.

End CachedAccess.

Section WrappedAccess.
Context {World : Type} `{!Interpreter World}.
Implicit Types (h : Heap World) (t w : loc) (key v : value).

(** C4 (as amended: for a key the wrapping table has no entry for).  When
    the table has no entry of its own for [key] and its reserved key
    [_hslua_value] does not hold a full userdata, the read raises the
    corrupted-object error, having changed nothing and called nothing. *)
Theorem corrupted_wrapper h t key :
  luaH_get (get_table h t) key = VNil →
  ttype (luaH_get (get_table h t) (VString "_hslua_value")) ≠ LUA_TUSERDATA →
  wrappedudindex h t key
  = Raised (ErrorValue
              (VString "Corrupted object, wrapped userdata not found."))
           h [].
Proof. apply wrappedudindex_corrupted. Qed.

(** C7.  When the wrapping table has no entry of its own for [key], its
    reserved key holds the userdata [w], and indexing [w] with [key] yields
    a non-nil [v], the read queries [w] once, returns [v] and writes
    [key -> v] into the wrapping table.  On every later heap in which the
    table still reads [v] under [key], whatever has become of the userdata
    and its fields, the read returns [v] without a query.  The claim is the
    case of the key "x" and the value 5. *)
Theorem wrapped_self_cache h t w key k' v h' :
  luaH_get (get_table h t) key = VNil →
  luaH_get (get_table h t) (VString "_hslua_value") = VUserdata w →
  classify_key key = Key k' →
  luaV_finishget (VUserdata w) key h = Returns v h' →
  v ≠ VNil →
  let h1 := set_table h' t (table_store (get_table h' t) k' v) in
  wrappedudindex h t key = Returned [v] h1 [EvIndex (VUserdata w) key]
  ∧ luaH_get (get_table h1 t) key = v
  ∧ ∀ h2, luaH_get (get_table h2 t) key = v →
          wrappedudindex h2 t key = Returned [v] h2 [].
Proof.
  intros Hl Hw Hk Hi Hne h1. split; [|split].
  - rewrite (wrappedudindex_delegates h t w key Hl Hw), Hi, Hk.
    by destruct v.
  - unfold h1. rewrite get_set_table. by apply luaH_get_store_same.
  - intros h2 H2. by apply wrappedudindex_local.
Qed.

End WrappedAccess.

(** * The claims on the small host *)

Existing Instance Example.interp.

Section OnExample.
Import Example.

(** The four functions run on the small host. *)
Example cachedindex_runs_getter :
  cachedindex (heap0 7) 1 (VString "size")
  = Returned [VInteger 7]
             (cache_write (heap0 7) 1 (VString "size") (VInteger 7))
             [EvCall (VFunction 1) [VUserdata 1]].
Proof.
  rewrite (cachedindex_getter (heap0 7) 1 (VString "size") (VString "size")
             (VFunction 1));
    [reflexivity | | | | discriminate | reflexivity];
    vm_compute; reflexivity.
Qed.

Example cachedindex_reads_cache :
  outcome_results (cachedindex (heap0 7) 3 (VString "size"))
  = Some [VInteger 3]
  ∧ outcome_calls (cachedindex (heap0 7) 3 (VString "size")) = Some [].
Proof. split; vm_compute; reflexivity. Qed.

Example cachedindex_getter_fails :
  outcome_results (cachedindex (heap0 7) 1 (VString "boom")) = None
  ∧ outcome_calls (cachedindex (heap0 7) 1 (VString "boom"))
    = Some [EvCall (VFunction 4) [VUserdata 1]].
Proof. split; vm_compute; reflexivity. Qed.

Example cachedsetindex_nil_key :
  ∃ h1, cachedsetindex (heap0 7) 1 VNil (VInteger 3)
        = Raised (RunError "table index is nil") h1 [].
Proof.
  eexists. apply call_cfunction_raises. unfold hslua_cachedsetindex.
  lua_steps. rewrite (get_caching_table_proxy _ _ _ 1%positive);
    [|vm_compute; reflexivity | reflexivity].
  cbv beta iota. lua_steps. by eexists.
Qed.

Example wrappedudindex_absent_field :
  outcome_results (wrappedudindex (heap0 5) 20 (VString "y")) = Some [VNil]
  ∧ outcome_calls (wrappedudindex (heap0 5) 20 (VString "y"))
    = Some [EvIndex (VUserdata 2) (VString "y")].
Proof. split; vm_compute; reflexivity. Qed.

Example wrappedudindex_not_a_table :
  call_cfunction hslua_wrappedudindex [VInteger 1; VString "x"] (heap0 5)
  = Raised (TypeError 1 LUA_TTABLE) (heap0 5) [].
Proof.
  apply call_cfunction_raises. unfold hslua_wrappedudindex.
  lua_steps. by eexists.
Qed.

Example float_keys :
  classify_key (VFloat 0x3FF0000000000000) = Key (VInteger 1)
  ∧ classify_key (VFloat 0x3FE0000000000000) = Key (VFloat 0x3FE0000000000000)
  ∧ classify_key (VFloat 0xC3E0000000000000) = Key (VInteger (- 2 ^ 63))
  ∧ classify_key (VFloat 0x43E0000000000000) = Key (VFloat 0x43E0000000000000)
  ∧ classify_key (VFloat 0x7FF8000000000000) = KeyNaN.
Proof. repeat split; vm_compute; reflexivity. Qed.

(** C1, witness: after [size] is set to 3 on proxy 1, whose class has a
    getter for [size], the read returns 3 and calls nothing. *)
Lemma read_after_write_witness :
  let h1 := cache_write (heap0 7) 1 (VString "size") (VInteger 3) in
  is_proxy (heap0 7) 1 = true
  ∧ class_getter h1 1 (VString "size") = VFunction 1
  ∧ cachedsetindex (heap0 7) 1 (VString "size") (VInteger 3)
    = Returned [] h1 []
  ∧ cachedindex h1 1 (VString "size") = Returned [VInteger 3] h1 [].
Proof.
  intros h1.
  assert (is_proxy (heap0 7) 1 = true) as Hp by (vm_compute; reflexivity).
  assert (cachedsetindex (heap0 7) 1 (VString "size") (VInteger 3)
          = Returned [] h1 []) as Hw
    by (apply cachedsetindex_writes; [exact Hp | reflexivity]).
  split; [exact Hp|]. split; [vm_compute; reflexivity|].
  split; [exact Hw|].
  exact (read_after_write (heap0 7) 1 (VString "size") (VInteger 3) [] h1 []
           Hp ltac:(discriminate) Hw).
Defined.

(** C1, counterexample: the write of nil under [size] returns, and the
    read that follows does not return nil: the getter runs and yields 7. *)
Lemma write_nil_then_read_runs_getter :
  ¬ (∀ results h1 calls,
       cachedsetindex (heap0 7) 1 (VString "size") VNil
       = Returned results h1 calls →
       ∃ h2 calls2,
         cachedindex h1 1 (VString "size") = Returned [VNil] h2 calls2).
Proof.
  intros H.
  assert (is_proxy (heap0 7) 1 = true) as Hp by (vm_compute; reflexivity).
  set (h1 := cache_write (heap0 7) 1 (VString "size") VNil).
  assert (cachedsetindex (heap0 7) 1 (VString "size") VNil
          = Returned [] h1 []) as Hw
    by (apply cachedsetindex_writes; [exact Hp | reflexivity]).
  destruct (H _ _ _ Hw) as (h2 & calls2 & E).
  rewrite (cachedindex_getter h1 1 (VString "size") (VString "size")
             (VFunction 1)) in E.
  - cbn [luaD_call interp native_call] in E. discriminate E.
  - by apply is_proxy_cache_write.
  - by apply cache_entry_cache_write.
  - vm_compute; reflexivity.
  - discriminate.
  - reflexivity.
Qed.

(** C2, witness: the write called with the proxy and a key only. *)
Lemma write_without_value_fails_witness :
  (length [VUserdata 1; VString "size"] < 3)%nat
  ∧ call_cfunction hslua_cachedsetindex [VUserdata 1; VString "size"]
                   (heap0 7)
    = Raised (ArgError 3 "value expected") (heap0 7) [].
Proof.
  split; [cbn; lia|].
  apply (write_without_value_fails [VUserdata 1; VString "size"] (heap0 7)).
  cbn; lia.
Defined.

(** C2, counterexample: proxy 3 has 3 cached under [size]; the write of
    nil does not raise, it returns, and the entry is gone. *)
Lemma nil_write_accepted :
  cache_entry (heap0 7) 3 (VString "size") = VInteger 3
  ∧ (¬ ∃ e h1 calls,
         cachedsetindex (heap0 7) 3 (VString "size") VNil
         = Raised e h1 calls)
  ∧ ∃ h1,
      cachedsetindex (heap0 7) 3 (VString "size") VNil = Returned [] h1 []
      ∧ cache_entry h1 3 (VString "size") = VNil.
Proof.
  assert (is_proxy (heap0 7) 3 = true) as Hp by (vm_compute; reflexivity).
  set (h1 := cache_write (heap0 7) 3 (VString "size") VNil).
  assert (cachedsetindex (heap0 7) 3 (VString "size") VNil
          = Returned [] h1 []) as Hw
    by (apply cachedsetindex_writes; [exact Hp | reflexivity]).
  split; [vm_compute; reflexivity|]. split.
  - intros (e & h' & calls & E). rewrite Hw in E. discriminate E.
  - exists h1. split; [exact Hw|]. by apply cache_entry_cache_write.
Qed.

(** C3, witness: the getter [tick] of proxy 1 reports the counter, 7, and
    advances it; the first read calls it, the second is served 7 from the
    cache although the getter would now yield 8. *)
Lemma getter_result_cached_witness :
  let h2 := mkHeap (tables (with_cache (heap0 7) 1))
                   (udata (with_cache (heap0 7) 1))
                   (basic_mt (with_cache (heap0 7) 1)) 8 in
  class_getter (heap0 7) 1 (VString "tick") = VFunction 2
  ∧ luaD_call (VFunction 2) [VUserdata 1] (with_cache (heap0 7) 1)
    = Returns [VInteger 7] h2
  ∧ ∃ h3,
      cachedindex (heap0 7) 1 (VString "tick")
      = Returned [VInteger 7] h3 [EvCall (VFunction 2) [VUserdata 1]]
      ∧ cache_entry h3 1 (VString "tick") = VInteger 7
      ∧ cachedindex h3 1 (VString "tick") = Returned [VInteger 7] h3 [].
Proof.
  intros h2.
  assert (class_getter (heap0 7) 1 (VString "tick") = VFunction 2) as Hg
    by (vm_compute; reflexivity).
  assert (luaD_call (VFunction 2) [VUserdata 1] (with_cache (heap0 7) 1)
          = Returns [VInteger 7] h2) as Hcall by reflexivity.
  split; [exact Hg|]. split; [exact Hcall|].
  apply (getter_result_cached (heap0 7) 1 (VString "tick") (VFunction 2)
           [VInteger 7] h2 (VInteger 7)).
  - vm_compute; reflexivity.
  - vm_compute; reflexivity.
  - exact Hg.
  - discriminate.
  - exact Hcall.
  - reflexivity.
  - discriminate.
  - vm_compute; reflexivity.
Defined.

(** C3, counterexample: the getter [gone] of proxy 1 returns nil; the read
    that follows the first one calls it again. *)
Lemma getter_nil_not_cached :
  class_getter (heap0 7) 1 (VString "gone") = VFunction 3
  ∧ cache_entry (heap0 7) 1 (VString "gone") = VNil
  ∧ ¬ (∀ results h3 calls,
         cachedindex (heap0 7) 1 (VString "gone")
         = Returned results h3 calls →
         ∃ v h4, cachedindex h3 1 (VString "gone") = Returned [v] h4 []).
Proof.
  assert (class_getter (heap0 7) 1 (VString "gone") = VFunction 3) as Hg
    by (vm_compute; reflexivity).
  assert (cache_entry (heap0 7) 1 (VString "gone") = VNil) as Hc
    by (vm_compute; reflexivity).
  split; [exact Hg|]. split; [exact Hc|]. intros H.
  set (h1 := with_cache (heap0 7) 1).
  set (h3 := set_table h1 31
               (table_store (get_table h1 31) (VString "gone") VNil)).
  assert (cachedindex (heap0 7) 1 (VString "gone")
          = Returned [VNil] h3 [EvCall (VFunction 3) [VUserdata 1]]) as E1.
  { rewrite (cachedindex_getter (heap0 7) 1 (VString "gone")
               (VString "gone") (VFunction 3));
      [reflexivity | vm_compute; reflexivity | exact Hc | exact Hg
      | discriminate | reflexivity]. }
  destruct (H _ _ _ E1) as (v & h4 & E2).
  apply (f_equal outcome_calls) in E2.
  rewrite (cachedindex_miss_calls_getter h3 1 (VString "gone") (VFunction 3))
    in E2; [discriminate E2 | | | | discriminate];
    vm_compute; reflexivity.
Qed.

(** C5, witness: [close] is a method of proxy 1's class. *)
Lemma method_not_cached_witness :
  class_method (heap0 7) 1 (VString "close") = VFunction 9
  ∧ cachedindex (heap0 7) 1 (VString "close")
    = Returned [VFunction 9] (with_cache (heap0 7) 1) []
  ∧ cache_entry (with_cache (heap0 7) 1) 1 (VString "close") = VNil.
Proof.
  split; [vm_compute; reflexivity|].
  apply (method_not_cached (heap0 7) 1 (VString "close") (VFunction 9));
    try (vm_compute; reflexivity).
  discriminate.
Defined.

(** C8, witness: [nope] is nowhere in proxy 1 or its class. *)
Lemma read_not_found_witness :
  cachedindex (heap0 7) 1 (VString "nope")
  = Returned [VNil] (with_cache (heap0 7) 1) [].
Proof.
  apply (read_not_found (heap0 7) 1 (VString "nope"));
    vm_compute; reflexivity.
Defined.

(** C9, witness: proxy 3 has 3 cached under [size], for which its class
    has a getter; after the write of nil the read calls the getter. *)
Lemma write_nil_uncaches_witness :
  cache_entry (heap0 7) 3 (VString "size") = VInteger 3
  ∧ ∃ h1,
      (cachedsetindex (heap0 7) 3 (VString "size") VNil = Returned [] h1 []
       ∨ ∃ msg, cachedsetindex (heap0 7) 3 (VString "size") VNil
                = Raised (RunError msg) h1 [])
      ∧ cache_entry h1 3 (VString "size") = VNil
      ∧ (class_getter h1 3 (VString "size") = VNil →
         cachedindex h1 3 (VString "size")
         = Returned [class_method h1 3 (VString "size")] h1 [])
      ∧ (class_getter h1 3 (VString "size") ≠ VNil →
         outcome_calls (cachedindex h1 3 (VString "size"))
         = Some [EvCall (class_getter h1 3 (VString "size")) [VUserdata 3]]).
Proof.
  split; [vm_compute; reflexivity|].
  apply (write_nil_uncaches (heap0 7) 3 (VString "size")).
  vm_compute; reflexivity.
Defined.

(** C10, witness: the getter [gone] of proxy 1 returns nil and changes
    nothing. *)
Lemma nil_getter_runs_again_witness :
  ∃ h3,
    cachedindex (heap0 7) 1 (VString "gone")
    = Returned [VNil] h3 [EvCall (VFunction 3) [VUserdata 1]]
    ∧ is_proxy h3 1 = true
    ∧ cache_entry h3 1 (VString "gone") = VNil
    ∧ class_getter h3 1 (VString "gone") = VFunction 3
    ∧ outcome_calls (cachedindex h3 1 (VString "gone"))
      = Some [EvCall (VFunction 3) [VUserdata 1]].
Proof.
  destruct (nil_getter_runs_again (heap0 7) 1 (VString "gone") (VFunction 3)
              [VNil] (with_cache (heap0 7) 1))
    as (h3 & E & Hp & Hc & Hg & Hcalls).
  - vm_compute; reflexivity.
  - vm_compute; reflexivity.
  - vm_compute; reflexivity.
  - discriminate.
  - reflexivity.
  - reflexivity.
  - vm_compute; reflexivity.
  - exists h3. split; [exact E|]. split; [exact Hp|]. split; [exact Hc|].
    assert (class_getter h3 1 (VString "gone") = VFunction 3) as Hg3
      by (apply Hg; vm_compute; reflexivity).
    split; [exact Hg3|]. exact (Hcalls h3 Hp Hc Hg3).
Defined.

(** C10, counterexample: on the third host the getter for [size] of
    proxy 1 returns nil after it has attached table 30, which holds 3 under
    [size].  The nil is filed in the table that was the cache when the
    read began, so the proxy's cache has an entry for [size] after the
    read, and the next read returns 3 and does not call the getter. *)
Lemma nil_getter_detaching_cache :
  class_getter (heap0 7) 1 (VString "size") = VFunction 1
  ∧ cache_entry (heap0 7) 1 (VString "size") = VNil
  ∧ (∃ h2, @luaD_call Z Detach.interp (VFunction 1) [VUserdata 1]
             (with_cache (heap0 7) 1) = Returns [VNil] h2)
  ∧ (∃ h3,
       @cachedindex Z Detach.interp (heap0 7) 1 (VString "size")
       = Returned [VNil] h3 [EvCall (VFunction 1) [VUserdata 1]]
       ∧ cache_entry h3 1 (VString "size") = VInteger 3
       ∧ @cachedindex Z Detach.interp h3 1 (VString "size")
         = Returned [VInteger 3] h3 [])
  ∧ ¬ (∀ results h3 calls,
         @cachedindex Z Detach.interp (heap0 7) 1 (VString "size")
         = Returned results h3 calls →
         cache_entry h3 1 (VString "size") = VNil
         ∧ outcome_calls
             (@cachedindex Z Detach.interp h3 1 (VString "size"))
           = Some [EvCall (VFunction 1) [VUserdata 1]]).
Proof.
  assert (class_getter (heap0 7) 1 (VString "size") = VFunction 1) as Hg
    by (vm_compute; reflexivity).
  assert (cache_entry (heap0 7) 1 (VString "size") = VNil) as Hc
    by (vm_compute; reflexivity).
  split; [exact Hg|]. split; [exact Hc|].
  split; [eexists; reflexivity|].
  set (h1 := with_cache (heap0 7) 1).
  set (h2 := set_udata h1 1
               (mkUdata (VTable 30) (ud_metatable (get_udata h1 1)))).
  set (c := cache_loc (heap0 7) 1).
  set (h3 := set_table h2 c (table_store (get_table h2 c) (VString "size")
                                         VNil)).
  assert (@cachedindex Z Detach.interp (heap0 7) 1 (VString "size")
          = Returned [VNil] h3 [EvCall (VFunction 1) [VUserdata 1]]) as E1.
  { rewrite (@cachedindex_getter Z Detach.interp (heap0 7) 1 (VString "size")
               (VString "size") (VFunction 1));
      [reflexivity | vm_compute; reflexivity | exact Hc | exact Hg
      | discriminate | reflexivity]. }
  assert (cache_entry h3 1 (VString "size") = VInteger 3) as Hthree
    by (vm_compute; reflexivity).
  split.
  - exists h3. split; [exact E1|]. split; [exact Hthree|].
    apply (@cachedindex_cached Z Detach.interp);
      [vm_compute; reflexivity | exact Hthree | discriminate].
  - intros H. destruct (H _ _ _ E1) as [Hnone _].
    rewrite Hthree in Hnone. discriminate Hnone.
Qed.

(** C6, witness: proxy 1 has no cache yet, the helper creates table 31. *)
Lemma bootstrap_idempotent_witness :
  ∃ c h1,
    get_caching_table (heap0 7) 1 = Some (c, h1)
    ∧ get_caching_table h1 1 = Some (c, h1)
    ∧ ∀ l key k' v,
        c = VTable l → classify_key key = Key k' →
        let h2 := set_table h1 l (table_store (get_table h1 l) k' v) in
        get_caching_table h2 1 = Some (c, h2)
        ∧ luaH_get (get_table h2 l) key = v.
Proof. exact (proj2 (bootstrap_idempotent (heap0 7) 1)). Defined.

(** C4, witness: table 21 has no entry at all. *)
Lemma corrupted_wrapper_witness :
  wrappedudindex (heap0 5) 21 (VString "x")
  = Raised (ErrorValue
              (VString "Corrupted object, wrapped userdata not found."))
           (heap0 5) [].
Proof.
  apply (corrupted_wrapper (heap0 5) 21 (VString "x")).
  - vm_compute; reflexivity.
  - vm_compute; discriminate.
Defined.

(** C4, counterexample: table 22 holds no userdata under the reserved key
    and has an entry for [x]; the read returns that entry. *)
Lemma local_entry_before_corruption_check :
  ttype (luaH_get (get_table (heap0 5) 22) (VString "_hslua_value"))
  ≠ LUA_TUSERDATA
  ∧ wrappedudindex (heap0 5) 22 (VString "x")
    = Returned [VInteger 1] (heap0 5) []
  ∧ ¬ ∃ h1 calls,
        wrappedudindex (heap0 5) 22 (VString "x")
        = Raised (ErrorValue
                    (VString "Corrupted object, wrapped userdata not found."))
                 h1 calls.
Proof.
  assert (wrappedudindex (heap0 5) 22 (VString "x")
          = Returned [VInteger 1] (heap0 5) []) as E
    by (apply wrappedudindex_local;
        [vm_compute; reflexivity | discriminate]).
  split; [vm_compute; discriminate|]. split; [exact E|].
  intros (h1 & calls & E'). rewrite E in E'. discriminate E'.
Qed.

(** C7, witness: table 20 wraps userdata 2, whose field [x] is the host's
    counter, 5; after the first read the counter is set to 9, and the
    second read still returns 5. *)
Lemma wrapped_self_cache_witness :
  let h1 := set_table (heap0 5) 20
              (table_store (get_table (heap0 5) 20) (VString "x")
                           (VInteger 5)) in
  let h2 := mkHeap (tables h1) (udata h1) (basic_mt h1) 9 in
  wrappedudindex (heap0 5) 20 (VString "x")
  = Returned [VInteger 5] h1 [EvIndex (VUserdata 2) (VString "x")]
  ∧ luaV_finishget (VUserdata 2) (VString "x") h2 = Returns (VInteger 9) h2
  ∧ wrappedudindex h2 20 (VString "x") = Returned [VInteger 5] h2 [].
Proof.
  intros h1 h2.
  destruct (wrapped_self_cache (heap0 5) 20 2 (VString "x") (VString "x")
              (VInteger 5) (heap0 5)) as (E1 & Hx & E2).
  - vm_compute; reflexivity.
  - vm_compute; reflexivity.
  - reflexivity.
  - reflexivity.
  - discriminate.
  - split; [exact E1|]. split; [reflexivity|].
    apply E2. vm_compute; reflexivity.
Defined.

End OnExample.

(** * Further properties of the four functions *)

(** ** Arguments *)

Section Arguments.
Context {World : Type} `{!Interpreter World}.
Implicit Types (h : Heap World) (s : list value) (tr : list event).

Lemma lbind_eq {A B} (m : LuaM World A) (k : A → LuaM World B) L :
  lbind m k L
  = match m L with
    | Ok a L' => k a L'
    | Error e L' => Error e L'
    | Undefined => Undefined
    end.
Proof. reflexivity. Qed.

Lemma luaL_checktype_bottom s h tr v t :
  s !! 0%nat = Some v →
  luaL_checktype 1 t (mkState s h tr)
  = if ttype v =? t then Ok tt (mkState s h tr)
    else Error (TypeError 1 t) (mkState s h tr).
Proof.
  intros Hv. unfold luaL_checktype, lua_type. rewrite lbind_eq.
  rewrite (index2value_bottom _ _ _ _ Hv). by destruct (ttype v =? t).
Qed.

Lemma lua_settop_two s h tr :
  lua_settop 2 (mkState s h tr) = Ok tt (mkState (resize 2 VNil s) h tr).
Proof. reflexivity. Qed.

Lemma lua_settop_three s h tr :
  lua_settop 3 (mkState s h tr) = Ok tt (mkState (resize 3 VNil s) h tr).
Proof. reflexivity. Qed.

Lemma resize_two s : resize 2 VNil s = [hd VNil s; hd VNil (tail s)].
Proof. by destruct s as [|a [|b [|c s]]]. Qed.

Lemma resize_three s a b c : resize 3 VNil (a :: b :: c :: s) = [a; b; c].
Proof. by destruct s. Qed.

(** The functions look at their first two (the write: three) arguments
    only. *)
Lemma hslua_wrappedudindex_two s1 s2 h tr t :
  s1 !! 0%nat = Some (VTable t) → s2 !! 0%nat = Some (VTable t) →
  resize 2 VNil s1 = resize 2 VNil s2 →
  hslua_wrappedudindex (mkState s1 h tr)
  = hslua_wrappedudindex (mkState s2 h tr).
Proof.
  intros H1 H2 Hr. unfold hslua_wrappedudindex.
  rewrite (lbind_eq _ _ (mkState s1 h tr)), (lbind_eq _ _ (mkState s2 h tr)).
  rewrite (luaL_checktype_bottom _ _ _ _ _ H1),
          (luaL_checktype_bottom _ _ _ _ _ H2).
  lua_test.
  rewrite (lbind_eq _ _ (mkState s1 h tr)), (lbind_eq _ _ (mkState s2 h tr)).
  rewrite (lua_settop_two s1 h tr), (lua_settop_two s2 h tr).
  by rewrite Hr.
Qed.

Lemma hslua_cachedindex_two s1 s2 h tr :
  resize 2 VNil s1 = resize 2 VNil s2 →
  hslua_cachedindex (mkState s1 h tr) = hslua_cachedindex (mkState s2 h tr).
Proof.
  intros Hr. unfold hslua_cachedindex.
  rewrite (lbind_eq _ _ (mkState s1 h tr)), (lbind_eq _ _ (mkState s2 h tr)).
  rewrite (lua_settop_two s1 h tr), (lua_settop_two s2 h tr).
  by rewrite Hr.
Qed.

End Arguments.

Lemma luaH_get_store_other (t : Table) (k' v k : value) :
  classify_key k ≠ Key k' → luaH_get (table_store t k' v) k = luaH_get t k.
Proof.
  intros Hne. unfold luaH_get, table_store.
  destruct (classify_key k) as [| |k2]; try reflexivity. cbn.
  assert (k' ≠ k2) by congruence.
  destruct v; by rewrite ?lookup_delete_ne, ?lookup_insert_ne.
Qed.

(** ** The wrapping table *)

Section MoreWrapped.
Context {World : Type} `{!Interpreter World}.
Implicit Types (h : Heap World) (t w : loc) (key v : value).

(** X1.  [hslua_wrappedudindex] checks its first argument: unless it is a
    table (a missing argument included) the call raises the type error for
    argument 1, with the heap as it was and no call made. *)
Theorem wrappedudindex_needs_table (args : list value) h :
  (∀ t, args !! 0%nat ≠ Some (VTable t)) →
  call_cfunction hslua_wrappedudindex args h
  = Raised (TypeError 1 LUA_TTABLE) h [].
Proof.
  intros Hnt. apply call_cfunction_raises. exists args.
  unfold hslua_wrappedudindex. rewrite lbind_eq.
  destruct args as [|v rest].
  - reflexivity.
  - rewrite (luaL_checktype_bottom _ _ _ v) by done.
    destruct v; try reflexivity. by destruct (Hnt l).
Qed.

(** X2.  Arguments after the second are ignored, and a missing key is the
    key nil: the call on a table followed by any arguments is the read of
    the first of them, or of nil. *)
Theorem wrappedudindex_extra_arguments t (rest : list value) h :
  call_cfunction hslua_wrappedudindex (VTable t :: rest) h
  = wrappedudindex h t (hd VNil rest).
Proof.
  unfold wrappedudindex, call_cfunction.
  rewrite (hslua_wrappedudindex_two (VTable t :: rest)
             [VTable t; hd VNil rest] h [] t); [done | done | done |].
  by rewrite !resize_two.
Qed.

(** X3.  A field the wrapped userdata does not have is not recorded: the
    read returns nil and leaves the heap exactly as the query left it, and
    every read on a heap where the table has no entry of its own for [key]
    and holds [w] queries [w] again. *)
Theorem wrapped_absent_not_cached h t w key h' :
  luaH_get (get_table h t) key = VNil →
  luaH_get (get_table h t) (VString "_hslua_value") = VUserdata w →
  luaV_finishget (VUserdata w) key h = Returns VNil h' →
  wrappedudindex h t key = Returned [VNil] h' [EvIndex (VUserdata w) key]
  ∧ ∀ h2, luaH_get (get_table h2 t) key = VNil →
          luaH_get (get_table h2 t) (VString "_hslua_value") = VUserdata w →
          outcome_calls (wrappedudindex h2 t key)
          = Some [EvIndex (VUserdata w) key].
Proof.
  intros Hl Hw Hi. split.
  - by rewrite (wrappedudindex_delegates h t w key Hl Hw), Hi.
  - intros h2 Hl2 Hw2.
    rewrite (wrappedudindex_delegates h2 t w key Hl2 Hw2).
    destruct (luaV_finishget (VUserdata w) key h2) as [v h3|e h3]; [|done].
    by destruct v, (classify_key key).
Qed.

(** X4.  An error raised while the wrapped userdata is indexed is raised
    by the read as it is; nothing is written into the wrapping table, the
    heap is the one the failed query left. *)
Theorem wrapped_index_error_propagates h t w key e h' :
  luaH_get (get_table h t) key = VNil →
  luaH_get (get_table h t) (VString "_hslua_value") = VUserdata w →
  luaV_finishget (VUserdata w) key h = Throws e h' →
  wrappedudindex h t key = Raised e h' [EvIndex (VUserdata w) key].
Proof.
  intros Hl Hw Hi.
  by rewrite (wrappedudindex_delegates h t w key Hl Hw), Hi.
Qed.

(** X5.  Nil and NaN can be looked up but not recorded: when the wrapped
    userdata yields a value for such a key, the copy into the wrapping
    table raises "table index is nil" (or "is NaN") and the value is lost;
    the query has been made by then. *)
Theorem wrapped_found_under_improper_key h t w key v h' :
  luaH_get (get_table h t) (VString "_hslua_value") = VUserdata w →
  luaV_finishget (VUserdata w) key h = Returns v h' →
  v ≠ VNil →
  (classify_key key = KeyNil →
   wrappedudindex h t key
   = Raised (RunError "table index is nil") h' [EvIndex (VUserdata w) key])
  ∧ (classify_key key = KeyNaN →
     wrappedudindex h t key
     = Raised (RunError "table index is NaN") h'
              [EvIndex (VUserdata w) key]).
Proof.
  intros Hw Hi Hne.
  split; intros Hk;
    (assert (luaH_get (get_table h t) key = VNil) as Hl
       by (apply luaH_get_improper; congruence));
    rewrite (wrappedudindex_delegates h t w key Hl Hw), Hi, Hk;
    by destruct v.
Qed.

(** X6.  On a table the read keeps to the contract of the API whatever
    the table holds: it returns exactly one value or it raises. *)
Theorem wrappedudindex_safe h t key :
  (∃ v h' calls, wrappedudindex h t key = Returned [v] h' calls)
  ∨ (∃ e h' calls, wrappedudindex h t key = Raised e h' calls).
Proof.
  destruct (decide (luaH_get (get_table h t) key = VNil)) as [Hl|Hl].
  - destruct (luaH_get (get_table h t) (VString "_hslua_value")) as
      [| | | | | | | |w|] eqn:Hw.
    9: { rewrite (wrappedudindex_delegates h t w key Hl Hw).
         destruct (luaV_finishget (VUserdata w) key h) as [v h'|e h'];
           [|right; by eexists _, _, _].
         destruct v, (classify_key key);
           (left; by eexists _, _, _) || (right; by eexists _, _, _). }
    all: right; eexists _, _, _; apply wrappedudindex_corrupted;
      [done | by rewrite Hw].
  - left. eexists _, _, _. by apply wrappedudindex_local.
Qed.

(** X7.  The copy into the wrapping table touches the entry for [key] and
    nothing else: the reserved key holds after the read what the query left
    there, and so does every other key of the table and every other
    table. *)
Theorem wrapper_handle_kept h t w key k' v h' :
  luaH_get (get_table h t) key = VNil →
  luaH_get (get_table h t) (VString "_hslua_value") = VUserdata w →
  classify_key key = Key k' →
  luaV_finishget (VUserdata w) key h = Returns v h' →
  v ≠ VNil →
  ∃ h1,
    wrappedudindex h t key = Returned [v] h1 [EvIndex (VUserdata w) key]
    ∧ luaH_get (get_table h1 t) (VString "_hslua_value")
      = luaH_get (get_table h' t) (VString "_hslua_value")
    ∧ (∀ key2, classify_key key2 ≠ Key k' →
               luaH_get (get_table h1 t) key2
               = luaH_get (get_table h' t) key2)
    ∧ (∀ l, l ≠ t → get_table h1 l = get_table h' l)
    ∧ (∀ u, get_udata h1 u = get_udata h' u).
Proof.
  intros Hl Hw Hk Hi Hne.
  exists (set_table h' t (table_store (get_table h' t) k' v)).
  assert (∀ key2, classify_key key2 ≠ Key k' →
            luaH_get (get_table
                        (set_table h' t (table_store (get_table h' t) k' v))
                        t) key2
            = luaH_get (get_table h' t) key2) as Hother.
  { intros key2 H2. rewrite get_set_table. by apply luaH_get_store_other. }
  split; [|split; [|split; [|split]]].
  - rewrite (wrappedudindex_delegates h t w key Hl Hw), Hi, Hk.
    by destruct v.
  - apply Hother. intros E. cbn in E. injection E as <-.
    unfold luaH_get in Hl, Hw. rewrite Hk in Hl. cbn in Hw. congruence.
  - exact Hother.
  - intros l Hne'. by apply get_set_table_ne.
  - reflexivity.
Qed.

End MoreWrapped.

(** ** The cache *)

Section MoreCached.
Context {World : Type} `{!Interpreter World}.
Implicit Types (h : Heap World) (u : loc) (key v : value).
Implicit Types (s : list value) (tr : list event).

Lemma get_udata_other h u u' d :
  u ≠ u' → get_udata (set_udata h u d) u' = get_udata h u'.
Proof.
  intros. unfold get_udata, set_udata. cbn. by rewrite lookup_insert_ne.
Qed.

Lemma class_getter_proper h u key g :
  class_getter h u key = g → g ≠ VNil → ∃ k', classify_key key = Key k'.
Proof.
  unfold class_getter, class_entry. intros Hg Hne.
  destruct (metafield h (VUserdata u) "getters"); try congruence.
  by eapply luaH_get_proper.
Qed.

Lemma class_entry_improper h u event key :
  (∀ k', classify_key key ≠ Key k') → class_entry h u event key = VNil.
Proof.
  intros Hk. unfold class_entry.
  destruct (metafield h (VUserdata u) event); try done.
  by apply luaH_get_improper.
Qed.

Lemma cache_entry_improper h u key :
  (∀ k', classify_key key ≠ Key k') → cache_entry h u key = VNil.
Proof.
  intros Hk. unfold cache_entry.
  destruct (uservalue h u); try done. by apply luaH_get_improper.
Qed.

Lemma get_caching_table_not_userdata s h tr a :
  (∀ u, a ≠ VUserdata u) →
  hsluaP_get_caching_table 1 (mkState (a :: s) h tr) = Undefined.
Proof.
  intros Ha. unfold hsluaP_get_caching_table. lua_unfold.
  rewrite (index2value_bottom _ _ _ a) by done.
  destruct a; try reflexivity. by destruct (Ha u).
Qed.

Lemma luaL_checkany_third s h tr v :
  s !! 2%nat = Some v →
  luaL_checkany 3 (mkState s h tr) = Ok tt (mkState s h tr).
Proof.
  intros Hv. unfold luaL_checkany, lua_type. rewrite lbind_eq.
  assert (index2value (mkState s h tr) 3 = Some v) as ->.
  { unfold index2value, stack_slot, gettop. cbn.
    pose proof (lookup_lt_Some _ _ _ Hv). leb_true. done. }
  lua_test. by rewrite ttype_not_none.
Qed.

(** X8.  On a userdata without a user value the helper creates the cache:
    a table at an address not in use before, empty and without metatable,
    attached to that userdata.  The userdata keeps its metatable, every
    other userdata is as it was, every address reads as the table it read
    as before, and the host's state is untouched. *)
Theorem bootstrap_creates_fresh_cache h u :
  uservalue h u = VNil →
  ∃ c h1,
    get_caching_table h u = Some (VTable c, h1)
    ∧ tables h !! c = None
    ∧ (∀ key, luaH_get (get_table h1 c) key = VNil)
    ∧ tbl_metatable (get_table h1 c) = None
    ∧ uservalue h1 u = VTable c
    ∧ ud_metatable (get_udata h1 u) = ud_metatable (get_udata h u)
    ∧ (∀ u', u' ≠ u → get_udata h1 u' = get_udata h u')
    ∧ (∀ l, get_table h1 l = get_table h l)
    ∧ host h1 = host h.
Proof.
  intros Hn. exists (fresh_table h), (with_cache h u).
  assert (get_table (with_cache h u) (fresh_table h) = empty_table) as Hc.
  { rewrite get_table_with_cache. unfold get_table.
    by rewrite fresh_table_unused. }
  split; [by rewrite get_caching_table_eq, Hn|].
  split; [apply fresh_table_unused|].
  split; [intros key; rewrite Hc; apply luaH_get_empty|].
  split; [by rewrite Hc|].
  split.
  { rewrite uservalue_with_cache by (unfold is_proxy; by rewrite Hn).
    unfold cache_loc. by rewrite Hn. }
  split; [apply metatable_with_cache|].
  split.
  { intros u' Hne. unfold with_cache. rewrite Hn.
    by rewrite get_udata_other, get_udata_set_table. }
  split; [apply get_table_with_cache|].
  unfold with_cache. by rewrite Hn.
Qed.

(** X9.  The helper computes the absolute index and then does not use it.
    Called with the relative index -1 for the userdata on top of the stack,
    it works when a user value is attached, which it pushes; when there is
    none, [lua_setuservalue] is applied at index -1 to the copy of the new
    table instead of the userdata, which breaks the contract of the API. *)
Theorem helper_relative_index s h tr u :
  (uservalue h u = VNil →
   hsluaP_get_caching_table (-1) (mkState (s ++ [VUserdata u]) h tr)
   = Undefined)
  ∧ (∀ c, uservalue h u = c → c ≠ VNil →
          hsluaP_get_caching_table (-1) (mkState (s ++ [VUserdata u]) h tr)
          = Ok tt (mkState (s ++ [VUserdata u; c]) h tr)).
Proof.
  split.
  - intros Hn. unfold hsluaP_get_caching_table. lua_unfold.
    rewrite index2value_top. fold (uservalue h u). rewrite Hn. lua_consts.
    rewrite lua_pop_one, index2value_top, index2value_top.
    by rewrite pop_value_snoc.
  - intros c Hc Hne. unfold hsluaP_get_caching_table. lua_unfold.
    rewrite index2value_top. fold (uservalue h u). rewrite Hc.
    rewrite <- app_assoc. destruct c; try done.
Qed.

(** X10.  An error raised by the getter is raised by the read as it is;
    the getter was called once on the proxy, nothing is stored, and the
    heap is the one the getter left. *)
Theorem getter_error_propagates h u key g e h2 :
  is_proxy h u = true →
  cache_entry h u key = VNil →
  class_getter h u key = g → g ≠ VNil →
  luaD_call g [VUserdata u] (with_cache h u) = Throws e h2 →
  cachedindex h u key = Raised e h2 [EvCall g [VUserdata u]].
Proof.
  intros Hp Hc Hg Hne Hcall.
  destruct (class_getter_proper h u key g Hg Hne) as [k' Hk].
  by rewrite (cachedindex_getter h u key k' g), Hcall.
Qed.

(** X11.  Nil and NaN are keys of no table, so a read under such a key
    finds nothing in any tier: it returns nil and calls nothing, whatever
    the class provides.  A read without a key is the read of nil. *)
Theorem read_improper_key h u key :
  is_proxy h u = true →
  (∀ k', classify_key key ≠ Key k') →
  cachedindex h u key = Returned [VNil] (with_cache h u) []
  ∧ call_cfunction hslua_cachedindex [VUserdata u] h
    = Returned [VNil] (with_cache h u) [].
Proof.
  intros Hp Hk.
  assert (∀ key0, (∀ k', classify_key key0 ≠ Key k') →
            cachedindex h u key0 = Returned [VNil] (with_cache h u) [])
    as Hread.
  { intros key0 Hk0.
    rewrite (cachedindex_none h u key0 Hp);
      [| by apply cache_entry_improper | by apply class_entry_improper].
    unfold class_method. by rewrite class_entry_improper. }
  split; [by apply Hread|].
  rewrite <- (Hread VNil) by done.
  unfold cachedindex, call_cfunction.
  by rewrite (hslua_cachedindex_two [VUserdata u] [VUserdata u; VNil] h []).
Qed.

(** X12.  The read and the write look at their first two and three
    arguments: further arguments change nothing, and a read with the key
    missing is the read of nil. *)
Theorem cached_extra_arguments u key v (rest : list value) h :
  call_cfunction hslua_cachedindex (VUserdata u :: rest) h
  = cachedindex h u (hd VNil rest)
  ∧ call_cfunction hslua_cachedsetindex (VUserdata u :: key :: v :: rest) h
    = cachedsetindex h u key v.
Proof.
  split.
  - unfold cachedindex, call_cfunction.
    rewrite (hslua_cachedindex_two (VUserdata u :: rest)
               [VUserdata u; hd VNil rest] h []); [done|].
    by rewrite !resize_two.
  - unfold cachedsetindex, call_cfunction, hslua_cachedsetindex.
    rewrite (lbind_eq _ _ (mkState (VUserdata u :: key :: v :: rest) h [])),
            (lbind_eq _ _ (mkState [VUserdata u; key; v] h [])).
    rewrite !(luaL_checkany_third _ _ _ v) by done.
    rewrite (lbind_eq _ _ (mkState (VUserdata u :: key :: v :: rest) h [])),
            (lbind_eq _ _ (mkState [VUserdata u; key; v] h [])).
    rewrite !lua_settop_three. by rewrite !resize_three.
Qed.

(** X13.  Neither the read nor the write checks that its first argument is
    a userdata: on anything else (for the read: also on no argument at
    all) [lua_getuservalue] is applied to a value that is no full userdata,
    which breaks the contract of the API. *)
Theorem proxy_argument_unchecked (args : list value) h :
  (∀ u, args !! 0%nat ≠ Some (VUserdata u)) →
  call_cfunction hslua_cachedindex args h = Crashed
  ∧ ((3 ≤ length args)%nat →
     call_cfunction hslua_cachedsetindex args h = Crashed).
Proof.
  intros Ha. split.
  - unfold call_cfunction.
    rewrite (hslua_cachedindex_two args [hd VNil args; hd VNil (tail args)]
               h []) by (by rewrite !resize_two).
    unfold hslua_cachedindex. rewrite lbind_eq, lua_settop_two.
    change (resize 2 VNil [hd VNil args; hd VNil (tail args)])
      with [hd VNil args; hd VNil (tail args)].
    rewrite lbind_eq, get_caching_table_not_userdata; [done|].
    intros u E. destruct args as [|a args]; [done|].
    cbn in E. subst a. by destruct (Ha u).
  - intros Hlen. destruct args as [|a [|b [|c rest]]]; cbn in Hlen; try lia.
    unfold call_cfunction, hslua_cachedsetindex.
    rewrite lbind_eq, (luaL_checkany_third _ _ _ c) by done.
    rewrite lbind_eq, lua_settop_three, resize_three, lbind_eq.
    rewrite get_caching_table_not_userdata; [done|].
    intros u ->. by destruct (Ha u).
Qed.

(** X14.  On a proxy the read keeps to the contract of the API: it returns
    exactly one value, or it raises, and then the error is the one the
    class's getter for [key] raised. *)
Theorem cachedindex_safe h u key :
  is_proxy h u = true →
  (∃ v h' calls, cachedindex h u key = Returned [v] h' calls)
  ∨ (∃ e h2,
       luaD_call (class_getter h u key) [VUserdata u] (with_cache h u)
       = Throws e h2
       ∧ cachedindex h u key
         = Raised e h2 [EvCall (class_getter h u key) [VUserdata u]]).
Proof.
  intros Hp.
  destruct (decide (cache_entry h u key = VNil)) as [Hc|Hc].
  - destruct (decide (class_getter h u key = VNil)) as [Hg|Hg].
    + left. eexists _, _, _. by apply cachedindex_none.
    + destruct (class_getter_proper h u key _ eq_refl Hg) as [k' Hk].
      rewrite (cachedindex_getter h u key k' (class_getter h u key))
        by done.
      destruct (luaD_call (class_getter h u key) [VUserdata u]
                  (with_cache h u)) as [rets h2|e h2].
      * left. by eexists _, _, _.
      * right. by eexists _, _.
  - left. eexists _, _, _. by apply cachedindex_cached.
Qed.

(** X15.  A write under nil or NaN raises "table index is nil" or "table
    index is NaN".  The error comes from the raw set, that is after the
    bootstrap: a proxy without a cache has an empty one attached when the
    error is raised. *)
Theorem write_bad_key h u key v :
  is_proxy h u = true →
  (classify_key key = KeyNil →
   cachedsetindex h u key v
   = Raised (RunError "table index is nil") (with_cache h u) [])
  ∧ (classify_key key = KeyNaN →
     cachedsetindex h u key v
     = Raised (RunError "table index is NaN") (with_cache h u) []).
Proof.
  intros Hp. split; intros Hk.
  all: apply call_cfunction_raises; unfold hslua_cachedsetindex; lua_steps;
    rewrite ttype_not_none; lua_steps;
    rewrite (get_caching_table_proxy _ _ _ u) by done; cbv beta iota;
    lua_steps; rewrite Hk; by eexists.
Qed.

(** X16.  A write that returns has changed one entry of one table: the
    proxy's cache is attached, holds [v] under [key], and reads under every
    other key as before; every other table, the proxy's metatable, every
    other userdata and the host's state are as they were; no call was
    made. *)
Theorem write_frame h u key k' v :
  is_proxy h u = true →
  classify_key key = Key k' →
  ∃ h1,
    cachedsetindex h u key v = Returned [] h1 []
    ∧ uservalue h1 u = VTable (cache_loc h u)
    ∧ cache_entry h1 u key = v
    ∧ (∀ key2, classify_key key2 ≠ Key k' →
               cache_entry h1 u key2 = cache_entry h u key2)
    ∧ (∀ l, l ≠ cache_loc h u → get_table h1 l = get_table h l)
    ∧ ud_metatable (get_udata h1 u) = ud_metatable (get_udata h u)
    ∧ (∀ u', u' ≠ u → get_udata h1 u' = get_udata h u')
    ∧ host h1 = host h.
Proof.
  intros Hp Hk. exists (cache_write h u k' v).
  split; [by apply cachedsetindex_writes|].
  split; [by apply uservalue_cache_write|].
  split; [by apply cache_entry_cache_write|].
  split.
  { intros key2 H2. unfold cache_entry at 1.
    rewrite uservalue_cache_write by done. unfold cache_write.
    rewrite get_set_table, luaH_get_store_other by done.
    by apply cache_entry_at. }
  split.
  { intros l Hl. unfold cache_write.
    rewrite get_set_table_ne by done. apply get_table_with_cache. }
  split.
  { unfold cache_write. rewrite get_udata_set_table.
    apply metatable_with_cache. }
  split.
  { intros u' Hne. unfold cache_write. rewrite get_udata_set_table.
    unfold with_cache. destruct (uservalue h u); try done.
    by rewrite get_udata_other, get_udata_set_table. }
  unfold cache_write, with_cache. by destruct (uservalue h u).
Qed.



(** X19.  The helper takes any user value other than nil for the cache.
    On a userdata whose user value is neither nil nor a table, the read and
    the write apply the raw table access to that value, which breaks the
    contract of the API. *)
Theorem foreign_user_value_breaks h u key v c :
  uservalue h u = c → c ≠ VNil → (∀ l, c ≠ VTable l) →
  cachedindex h u key = Crashed ∧ cachedsetindex h u key v = Crashed.
Proof.
  intros Hc Hn Ht. split.
  - unfold cachedindex, call_cfunction, hslua_cachedindex. lua_steps.
    rewrite (hsluaP_get_caching_table_spec _ _ _ u) by done. rewrite Hc.
    destruct c; try done; cbv beta iota; lua_steps; try reflexivity.
    by destruct (Ht l).
  - unfold cachedsetindex, call_cfunction, hslua_cachedsetindex. lua_steps.
    rewrite ttype_not_none. lua_steps.
    rewrite (hsluaP_get_caching_table_spec _ _ _ u) by done. rewrite Hc.
    destruct c; try done; cbv beta iota; lua_steps; try reflexivity.
    by destruct (Ht l).
Qed.

End MoreCached.

(** ** The further properties on the two hosts *)

Section MoreOnExample.
Import Example.

(** X1, witness: a number where the wrapping table is expected. *)
Lemma wrappedudindex_needs_table_witness :
  call_cfunction hslua_wrappedudindex [VInteger 1; VString "x"] (heap0 5)
  = Raised (TypeError 1 LUA_TTABLE) (heap0 5) [].
Proof.
  apply (wrappedudindex_needs_table [VInteger 1; VString "x"] (heap0 5)).
  intros t. discriminate.
Defined.

(** X3, witness: userdata 2 has no field [y]. *)
Lemma wrapped_absent_not_cached_witness :
  wrappedudindex (heap0 5) 20 (VString "y")
  = Returned [VNil] (heap0 5) [EvIndex (VUserdata 2) (VString "y")]
  ∧ outcome_calls (wrappedudindex (heap0 5) 20 (VString "y"))
    = Some [EvIndex (VUserdata 2) (VString "y")].
Proof.
  destruct (wrapped_absent_not_cached (heap0 5) 20 2 (VString "y") (heap0 5))
    as [E Hagain].
  - vm_compute; reflexivity.
  - vm_compute; reflexivity.
  - reflexivity.
  - split; [exact E|]. apply Hagain; vm_compute; reflexivity.
Defined.

(** X4, witness: on the second host the field [fail] raises. *)
Lemma wrapped_index_error_propagates_witness :
  @wrappedudindex Z Strict.interp (heap0 5) 20 (VString "fail")
  = Raised (ErrorValue (VString "no such field")) (heap0 5)
           [EvIndex (VUserdata 2) (VString "fail")].
Proof.
  apply (@wrapped_index_error_propagates Z Strict.interp (heap0 5) 20 2
           (VString "fail")).
  - vm_compute; reflexivity.
  - vm_compute; reflexivity.
  - reflexivity.
Defined.

(** X5, witness: on the second host the userdata yields 5 for the key
    nil and for a NaN. *)
Lemma wrapped_found_under_improper_key_witness :
  @wrappedudindex Z Strict.interp (heap0 5) 20 VNil
  = Raised (RunError "table index is nil") (heap0 5)
           [EvIndex (VUserdata 2) VNil]
  ∧ @wrappedudindex Z Strict.interp (heap0 5) 20
      (VFloat 0x7FF8000000000000)
    = Raised (RunError "table index is NaN") (heap0 5)
             [EvIndex (VUserdata 2) (VFloat 0x7FF8000000000000)].
Proof.
  split.
  - apply (@wrapped_found_under_improper_key Z Strict.interp (heap0 5) 20 2
             VNil (VInteger 5) (heap0 5));
      [vm_compute; reflexivity | reflexivity | discriminate | reflexivity].
  - apply (@wrapped_found_under_improper_key Z Strict.interp (heap0 5) 20 2
             (VFloat 0x7FF8000000000000) (VInteger 5) (heap0 5));
      [vm_compute; reflexivity | reflexivity | discriminate
      | vm_compute; reflexivity].
Defined.

(** X7, witness: the read of [x] through table 20 leaves userdata 2 under
    the reserved key. *)
Lemma wrapper_handle_kept_witness :
  ∃ h1,
    wrappedudindex (heap0 5) 20 (VString "x")
    = Returned [VInteger 5] h1 [EvIndex (VUserdata 2) (VString "x")]
    ∧ luaH_get (get_table h1 20) (VString "_hslua_value") = VUserdata 2.
Proof.
  destruct (wrapper_handle_kept (heap0 5) 20 2 (VString "x") (VString "x")
              (VInteger 5) (heap0 5)) as (h1 & E & Hh & _).
  - vm_compute; reflexivity.
  - vm_compute; reflexivity.
  - reflexivity.
  - reflexivity.
  - discriminate.
  - exists h1. split; [exact E|]. rewrite Hh. vm_compute; reflexivity.
Defined.

(** X8, witness: proxy 1 has no cache; the highest address in use is 30. *)
Lemma bootstrap_creates_fresh_cache_witness :
  ∃ c h1,
    get_caching_table (heap0 7) 1 = Some (VTable c, h1)
    ∧ tables (heap0 7) !! c = None
    ∧ uservalue h1 1 = VTable c
    ∧ uservalue h1 3 = VTable 30.
Proof.
  destruct (bootstrap_creates_fresh_cache (heap0 7) 1)
    as (c & h1 & E & Hnew & _ & _ & Hu & _ & Hother & _).
  - vm_compute; reflexivity.
  - exists c, h1. split; [exact E|]. split; [exact Hnew|].
    split; [exact Hu|]. unfold uservalue. rewrite Hother by discriminate.
    vm_compute; reflexivity.
Defined.

(** X9, witness: proxy 1 has no cache, proxy 3 has table 30. *)
Lemma helper_relative_index_witness :
  hsluaP_get_caching_table (-1) (mkState [VUserdata 1] (heap0 7) [])
  = Undefined
  ∧ hsluaP_get_caching_table (-1) (mkState [VUserdata 3] (heap0 7) [])
    = Ok tt (mkState [VUserdata 3; VTable 30] (heap0 7) []).
Proof.
  split.
  - apply (proj1 (helper_relative_index [] (heap0 7) [] 1)).
    vm_compute; reflexivity.
  - apply (proj2 (helper_relative_index [] (heap0 7) [] 3) (VTable 30)).
    + vm_compute; reflexivity.
    + discriminate.
Defined.

(** X10, witness: the getter [boom] of proxy 1 fails. *)
Lemma getter_error_propagates_witness :
  cachedindex (heap0 7) 1 (VString "boom")
  = Raised (ErrorValue (VString "native failure")) (with_cache (heap0 7) 1)
           [EvCall (VFunction 4) [VUserdata 1]].
Proof.
  apply (getter_error_propagates (heap0 7) 1 (VString "boom") (VFunction 4)).
  - vm_compute; reflexivity.
  - vm_compute; reflexivity.
  - vm_compute; reflexivity.
  - discriminate.
  - reflexivity.
Defined.

(** X11, witness: the read of nil on proxy 1. *)
Lemma read_improper_key_witness :
  cachedindex (heap0 7) 1 VNil = Returned [VNil] (with_cache (heap0 7) 1) []
  ∧ call_cfunction hslua_cachedindex [VUserdata 1] (heap0 7)
    = Returned [VNil] (with_cache (heap0 7) 1) [].
Proof.
  apply (read_improper_key (heap0 7) 1 VNil).
  - vm_compute; reflexivity.
  - intros k'. discriminate.
Defined.

(** X13, witness: a table where the proxy is expected. *)
Lemma proxy_argument_unchecked_witness :
  call_cfunction hslua_cachedindex [VTable 20; VString "x"] (heap0 7)
  = Crashed
  ∧ call_cfunction hslua_cachedsetindex
      [VTable 20; VString "x"; VInteger 1] (heap0 7)
    = Crashed.
Proof.
  split.
  - apply (proxy_argument_unchecked [VTable 20; VString "x"] (heap0 7)).
    intros u. discriminate.
  - apply (proxy_argument_unchecked [VTable 20; VString "x"; VInteger 1]
             (heap0 7)).
    + intros u. discriminate.
    + cbn; lia.
Defined.

(** X14, witness: proxy 1 and the key [size]. *)
Lemma cachedindex_safe_witness :
  (∃ v h' calls,
     cachedindex (heap0 7) 1 (VString "size") = Returned [v] h' calls)
  ∨ (∃ e h2,
       luaD_call (class_getter (heap0 7) 1 (VString "size")) [VUserdata 1]
                 (with_cache (heap0 7) 1)
       = Throws e h2
       ∧ cachedindex (heap0 7) 1 (VString "size")
         = Raised e h2
             [EvCall (class_getter (heap0 7) 1 (VString "size"))
                     [VUserdata 1]]).
Proof.
  apply (cachedindex_safe (heap0 7) 1 (VString "size")).
  vm_compute; reflexivity.
Defined.

(** X15, witness: a write under nil and under a NaN on proxy 1, which has
    no cache before. *)
Lemma write_bad_key_witness :
  uservalue (heap0 7) 1 = VNil
  ∧ cachedsetindex (heap0 7) 1 VNil (VInteger 3)
    = Raised (RunError "table index is nil") (with_cache (heap0 7) 1) []
  ∧ cachedsetindex (heap0 7) 1 (VFloat 0x7FF8000000000000) (VInteger 3)
    = Raised (RunError "table index is NaN") (with_cache (heap0 7) 1) []
  ∧ uservalue (with_cache (heap0 7) 1) 1 = VTable 31.
Proof.
  split; [vm_compute; reflexivity|]. split; [|split].
  - apply (proj1 (write_bad_key (heap0 7) 1 VNil (VInteger 3)
                    ltac:(vm_compute; reflexivity))).
    reflexivity.
  - apply (proj2 (write_bad_key (heap0 7) 1 (VFloat 0x7FF8000000000000)
                    (VInteger 3) ltac:(vm_compute; reflexivity))).
    vm_compute; reflexivity.
  - vm_compute; reflexivity.
Defined.

(** X16, witness: a write of [tick] on proxy 3 leaves its [size]. *)
Lemma write_frame_witness :
  ∃ h1,
    cachedsetindex (heap0 7) 3 (VString "tick") (VInteger 0)
    = Returned [] h1 []
    ∧ cache_entry h1 3 (VString "tick") = VInteger 0
    ∧ cache_entry h1 3 (VString "size") = VInteger 3.
Proof.
  destruct (write_frame (heap0 7) 3 (VString "tick") (VString "tick")
              (VInteger 0)) as (h1 & E & _ & Hk & Hother & _).
  - vm_compute; reflexivity.
  - reflexivity.
  - exists h1. split; [exact E|]. split; [exact Hk|].
    rewrite Hother by discriminate. vm_compute; reflexivity.
Defined.



(** X19, witness: proxy 1 with a number as its user value. *)
Lemma foreign_user_value_breaks_witness :
  let h := set_udata (heap0 7) 1 (mkUdata (VInteger 0) (Some 10%positive)) in
  cachedindex h 1 (VString "size") = Crashed
  ∧ cachedsetindex h 1 (VString "size") (VInteger 3) = Crashed.
Proof.
  intros h.
  apply (foreign_user_value_breaks h 1 (VString "size") (VInteger 3)
           (VInteger 0)).
  - vm_compute; reflexivity.
  - discriminate.
  - intros l. discriminate.
Defined.

End MoreOnExample.
